(** * Dev-jams: bank statement parser and balance forecast preparation

    A shallow embedding of the two scripts of the repository,

    - [Actual_bankstatement_parser.py]  (module [Parser] below), and
    - [prediction_with_mutualfunds_recomendation.py]  (module [Prediction]),

    together with the small part of the Python and pandas run time they rely
    on (module [Py]: text, regular expressions, slices, cells of a sheet).

    Conventions of the embedding.
    - A Python [str] is a [string] whose characters are the code points
      0..255; the character classes below are Python's on that range.
    - Money and balances are floats in the scripts.  They are embedded as
      exact rationals [Q]: the scripts only compare, select, add and
      interpolate them, and rounding is outside the model.
    - A pandas frame is the list of its rows, in row order. *)

From Stdlib Require Import QArith Qminmax Qround ZArith Permutation Sorted Ascii
  String DecimalString List Bool.
From stdpp Require Import gmap strings list.

Local Open Scope string_scope.

(** ** The Python side: text, cells, regular expressions, slices *)

Module Py.

(** *** Characters and text *)

Definition code (c : ascii) : N := N_of_ascii c.

Definition between (lo hi : N) (c : ascii) : bool :=
  ((lo <=? code c) && (code c <=? hi))%N.

(** [str.isspace] on one character, which is also the class [\s] of a
    [str] pattern: tab..carriage return, the four separators 28..31, the
    space, NEL and the no-break space. *)
Definition isspace (c : ascii) : bool :=
  between 9 13 c || between 28 32 c || (code c =? 133)%N || (code c =? 160)%N.

(** The class [\d]: on this range, the ten ASCII digits. *)
Definition isdigit (c : ascii) : bool := between 48 57 c.

(** The class [.]: every character but the line feed. *)
Definition dot (c : ascii) : bool := negb (code c =? 10)%N.

(** The class [[a-zA-Z0-9 ]]. *)
Definition alnum_space (c : ascii) : bool :=
  between 97 122 c || between 65 90 c || between 48 57 c || (code c =? 32)%N.

(** [str.lower] on one character: A..Z, and the upper-case letters of
    Latin-1 (192..222 but the multiplication sign 215), move up by 32. *)
Definition lower_char (c : ascii) : ascii :=
  if between 65 90 c || (between 192 222 c && negb (code c =? 215)%N)
  then ascii_of_N (code c + 32)
  else c.

Fixpoint lower (s : string) : string :=
  match s with
  | EmptyString => EmptyString
  | String c s' => String (lower_char c) (lower s')
  end.

(** [sep.join(parts)] *)
Fixpoint join (sep : string) (parts : list string) : string :=
  match parts with
  | [] => ""
  | [p] => p
  | p :: rest => p ++ sep ++ join sep rest
  end.

(** [s.startswith(p)], returning what follows the prefix. *)
Fixpoint strip_prefix (p s : string) : option string :=
  match p, s with
  | EmptyString, _ => Some s
  | String a p', String b s' => if Ascii.eqb a b then strip_prefix p' s' else None
  | String _ _, EmptyString => None
  end.

(** [needle in hay] on two [str] *)
Fixpoint contains (needle hay : string) : bool :=
  match strip_prefix needle hay with
  | Some _ => true
  | None =>
      match hay with
      | EmptyString => false
      | String _ hay' => contains needle hay'
      end
  end.

(** [s.lstrip()], [s.rstrip()] and [s.strip()] with no argument *)
Fixpoint lstrip (s : string) : string :=
  match s with
  | String c s' => if isspace c then lstrip s' else s
  | EmptyString => EmptyString
  end.

Fixpoint rstrip (s : string) : string :=
  match s with
  | EmptyString => EmptyString
  | String c s' =>
      match rstrip s' with
      | EmptyString => if isspace c then EmptyString else String c EmptyString
      | r => String c r
      end
  end.

Definition strip (s : string) : string := rstrip (lstrip s).

(** *** Cells of a sheet

    A cell read from a spreadsheet is empty (pandas' NaN), a text, or a
    number.  [str()] of a float is Python's shortest round-trip rendering,
    which is not computed here: a numeric cell carries its rendering along
    with its value. *)

Inductive cell : Type :=
  | NaN
  | Str (s : string)
  | Num (v : Q) (rendering : string).

(** [str(c)] *)
Definition str (c : cell) : string :=
  match c with
  | NaN => "nan"
  | Str s => s
  | Num _ r => r
  end.

Definition isna (c : cell) : bool :=
  match c with NaN => true | _ => false end.

(** [row.dropna()] *)
Definition dropna (row : list cell) : list cell :=
  List.filter (fun c => negb (isna c)) row.

(** *** Regular expressions

    The fragment of [re] the scripts use: literals, classes, greedy and
    lazy repetition of a class, sequence, alternation and numbered groups,
    matched by backtracking in Python's order (leftmost start, first
    alternative first, greedy repetition longest first, lazy repetition
    shortest first). *)

Inductive regex : Type :=
  | Lit (s : string)
  | Class (p : ascii -> bool)
  | Star (p : ascii -> bool)
  | StarLazy (p : ascii -> bool)
  | Plus (p : ascii -> bool)
  | Seq (r1 r2 : regex)
  | Alt (r1 r2 : regex)
  | Group (n : nat) (r : regex).

Declare Scope regex_scope.
Delimit Scope regex_scope with re.
Bind Scope regex_scope with regex.
Notation "a @@ b" := (Seq a b) (at level 60, right associativity) : regex_scope.

(** The groups set so far, the most recent first. *)
Definition groups : Type := list (nat * string).

(** What a match leaves: the rest of the text and the groups. *)
Definition outcome : Type := (string * groups)%type.

(** The text consumed between [s] and its suffix [rest]. *)
Fixpoint take (n : nat) (s : string) : string :=
  match n, s with
  | S n', String c s' => String c (take n' s')
  | _, _ => EmptyString
  end.

Definition consumed (s rest : string) : string :=
  take (String.length s - String.length rest) s.

Fixpoint star_greedy (p : ascii -> bool) (s : string)
    (k : string -> option outcome) : option outcome :=
  match s with
  | String c s' =>
      if p c then
        match star_greedy p s' k with
        | Some o => Some o
        | None => k s
        end
      else k s
  | EmptyString => k s
  end.

Fixpoint star_lazy (p : ascii -> bool) (s : string)
    (k : string -> option outcome) : option outcome :=
  match k s with
  | Some o => Some o
  | None =>
      match s with
      | String c s' => if p c then star_lazy p s' k else None
      | EmptyString => None
      end
  end.

(** [match_at r s g k]: match [r] at the start of [s], then continue with
    [k]; [None] when every way of matching fails. *)
Fixpoint match_at (r : regex) (s : string) (g : groups)
    (k : string -> groups -> option outcome) : option outcome :=
  match r with
  | Lit l =>
      match strip_prefix l s with
      | Some s' => k s' g
      | None => None
      end
  | Class p =>
      match s with
      | String c s' => if p c then k s' g else None
      | EmptyString => None
      end
  | Star p => star_greedy p s (fun s' => k s' g)
  | StarLazy p => star_lazy p s (fun s' => k s' g)
  | Plus p =>
      match s with
      | String c s' => if p c then star_greedy p s' (fun s'' => k s'' g) else None
      | EmptyString => None
      end
  | Seq r1 r2 => match_at r1 s g (fun s' g' => match_at r2 s' g' k)
  | Alt r1 r2 =>
      match match_at r1 s g k with
      | Some o => Some o
      | None => match_at r2 s g k
      end
  | Group n r' => match_at r' s g (fun s' g' => k s' ((n, consumed s s') :: g'))
  end.

(** [re.search(r, s)]: the first position at which [r] matches. *)
Fixpoint search (r : regex) (s : string) : option groups :=
  match match_at r s [] (fun s' g => Some (s', g)) with
  | Some (_, g) => Some g
  | None =>
      match s with
      | String _ s' => search r s'
      | EmptyString => None
      end
  end.

(** [m.group(n)] for a group that took part in the match *)
Fixpoint group (n : nat) (g : groups) : string :=
  match g with
  | [] => ""
  | (i, s) :: g' => if Nat.eqb i n then s else group n g'
  end.

(** [re.sub] for a pattern that is one class, [re.sub('[..]', repl, s)]:
    every character of the class is replaced. *)
Fixpoint sub_class (p : ascii -> bool) (repl : string) (s : string) : string :=
  match s with
  | EmptyString => EmptyString
  | String c s' =>
      if p c then repl ++ sub_class p repl s' else String c (sub_class p repl s')
  end.

(** [re.sub] for a pattern that is a class repeated once or more,
    [re.sub('\s+', repl, s)]: every maximal run of the class is replaced.
    [in_run] tells that the run the current character belongs to has been
    replaced already. *)
Fixpoint sub_runs (p : ascii -> bool) (repl : string) (in_run : bool) (s : string)
    : string :=
  match s with
  | EmptyString => EmptyString
  | String c s' =>
      if p c then
        if in_run then sub_runs p repl true s'
        else repl ++ sub_runs p repl true s'
      else String c (sub_runs p repl false s')
  end.

Definition sub_class_plus (p : ascii -> bool) (repl s : string) : string :=
  sub_runs p repl false s.

(** *** Slices

    [l[start:stop]] with optional, possibly negative bounds, as
    [slice.indices] resolves them for a sequence of [n] items. *)

Definition clamp_index (n : Z) (i : Z) : Z :=
  if (i <? 0)%Z then Z.max (i + n) 0 else Z.min i n.

Definition slice {A : Type} (start stop : option Z) (l : list A) : list A :=
  let n := Z.of_nat (List.length l) in
  let lo := match start with None => 0%Z | Some i => clamp_index n i end in
  let hi := match stop with None => n | Some i => clamp_index n i end in
  firstn (Z.to_nat (hi - lo)) (skipn (Z.to_nat lo) l).

(** *** Shape of a cleaned text *)

(** A lower-case letter, a digit or the space. *)
Definition clean_char (c : ascii) : bool :=
  between 97 122 c || between 48 57 c || (code c =? 32)%N.

Fixpoint all_chars (p : ascii -> bool) (s : string) : bool :=
  match s with
  | EmptyString => true
  | String c s' => p c && all_chars p s'
  end.

(** Every white space is one space, and no two of them are adjacent;
    [after_space] tells that the character before the text is a space. *)
Fixpoint single_spaced (after_space : bool) (s : string) : bool :=
  match s with
  | EmptyString => true
  | String c s' =>
      if isspace c
      then negb after_space && Ascii.eqb c " " && single_spaced true s'
      else single_spaced false s'
  end.

Definition no_leading_space (s : string) : bool :=
  match s with
  | String c _ => negb (isspace c)
  | EmptyString => true
  end.

End Py.

(** ** Actual_bankstatement_parser.py *)

Module Parser.
Import Py.

(** A raw frame ([df_raw], read with [header=None]) is the list of its rows;
    every row has as many cells as the frame has columns. *)
Definition frame : Type := list (list cell).

Definition ncols (df : frame) : nat :=
  match df with
  | [] => 0
  | row :: _ => List.length row
  end.

(** *** Header information *)

(** The values of [header_info]: a text, or the two-entry dictionary of the
    statement period. *)
Inductive header_value : Type :=
  | Text (s : string)
  | Period (From To : string).

(** [Statement From\s*:\s*( .*? )\s*To\s*:\s*( .* )]  (the patterns are
    written here with blanks inside their groups) *)
Definition re_statement_period : regex :=
  (Lit "Statement From" @@ Star isspace @@ Lit ":" @@ Star isspace @@
   Group 1 (StarLazy dot) @@ Star isspace @@ Lit "To" @@ Star isspace @@
   Lit ":" @@ Star isspace @@ Group 2 (Star dot))%re.

(** [Account No\s*:\s*( \d+ )] *)
Definition re_account_no : regex :=
  (Lit "Account No" @@ Star isspace @@ Lit ":" @@ Star isspace @@
   Group 1 (Plus isdigit))%re.

(** [Email\s*:\s*( .* )] *)
Definition re_email : regex :=
  (Lit "Email" @@ Star isspace @@ Lit ":" @@ Star isspace @@
   Group 1 (Star dot))%re.

(** [( MR|MRS|MS )\s*( .* )] *)
Definition re_name : regex :=
  (Group 1 (Alt (Lit "MR") (Alt (Lit "MRS") (Lit "MS"))) @@ Star isspace @@
   Group 2 (Star dot))%re.

(** [Cust ID\s*:\s*( \d+ )] *)
Definition re_cust_id : regex :=
  (Lit "Cust ID" @@ Star isspace @@ Lit ":" @@ Star isspace @@
   Group 1 (Plus isdigit))%re.

(** [' '.join(map(str, row.dropna()))] *)
Definition line_of (row : list cell) : string :=
  join " " (map str (dropna row)).

(** The body of the loop of [extract_header_info]: one row, and the
    dictionary updated in place. *)
Definition header_row (header_info : gmap string header_value) (row : list cell)
    : gmap string header_value :=
  let line := line_of row in
  if contains "Statement From" line then
    match search re_statement_period line with
    | Some m => <["Statement Period" := Period (group 1 m) (group 2 m)]> header_info
    | None => header_info
    end
  else if contains "Account No" line then
    match search re_account_no line with
    | Some m => <["Account Number" := Text (group 1 m)]> header_info
    | None => header_info
    end
  else if contains "Email" line then
    match search re_email line with
    | Some m => <["Email" := Text (strip (group 1 m))]> header_info
    | None => header_info
    end
  else if contains "MR" line || contains "MRS" line || contains "MS" line then
    match search re_name line with
    | Some m => <["Name" := Text (strip (group 2 m))]> header_info
    | None => header_info
    end
  else if contains "Cust ID" line then
    match search re_cust_id line with
    | Some m => <["Customer ID" := Text (group 1 m)]> header_info
    | None => header_info
    end
  else header_info.

Definition extract_header_info (df : frame) : gmap string header_value :=
  fold_left header_row df ∅.

(** [df_raw.head(15)] *)
Definition head (n : nat) (df : frame) : frame := firstn n df.

(** [header_info = extract_header_info(df_raw.head(15))] *)
Definition header_info (df_raw : frame) : gmap string header_value :=
  extract_header_info (head 15 df_raw).

(** The entry one row writes, if it writes one: the key and the value of the
    assignment its branch of the loop body performs. *)
Definition assigned (row : list cell) : option (string * header_value) :=
  let line := line_of row in
  if contains "Statement From" line then
    (fun m => ("Statement Period", Period (group 1 m) (group 2 m)))
      <$> search re_statement_period line
  else if contains "Account No" line then
    (fun m => ("Account Number", Text (group 1 m))) <$> search re_account_no line
  else if contains "Email" line then
    (fun m => ("Email", Text (strip (group 1 m)))) <$> search re_email line
  else if contains "MR" line || contains "MRS" line || contains "MS" line then
    (fun m => ("Name", Text (strip (group 2 m)))) <$> search re_name line
  else if contains "Cust ID" line then
    (fun m => ("Customer ID", Text (group 1 m))) <$> search re_cust_id line
  else None.

(** The value the last row writing [key] writes: rows are read first to
    last, so this is the first such row from the end. *)
Fixpoint last_assigned (key : string) (df : frame) : option header_value :=
  match df with
  | [] => None
  | row :: rest =>
      match last_assigned key rest with
      | Some v => Some v
      | None =>
          match assigned row with
          | Some (k, v) => if String.eqb k key then Some v else None
          | None => None
          end
      end
  end.

(** The value the first row writing [key] writes. *)
Fixpoint first_assigned (key : string) (df : frame) : option header_value :=
  match df with
  | [] => None
  | row :: rest =>
      match assigned row with
      | Some (k, v) => if String.eqb k key then Some v else first_assigned key rest
      | None => first_assigned key rest
      end
  end.

(** *** The transaction table *)

(** The two tests of the loop of [find_transaction_data_indices], on the
    row [row_values = df.iloc[i].astype(str).str.lower()]: 'date' and
    'narration' are both among the cells; 'statement summary' occurs in the
    cells joined by blanks. *)
Definition is_start_marker (row : list cell) : bool :=
  let row_values := map (fun c => lower (str c)) row in
  existsb (String.eqb "date") row_values
  && existsb (String.eqb "narration") row_values.

Definition is_end_marker (row : list cell) : bool :=
  let row_values := map (fun c => lower (str c)) row in
  contains "statement summary" (join " " row_values).

(** [find_transaction_data_indices]: the loop over the rows, with the row
    number [i] and the start index found so far; [None] is Python's [None]. *)
Fixpoint find_from (rows : frame) (i : Z) (transaction_start_idx : option Z)
    : option Z * option Z :=
  match rows with
  | [] => (transaction_start_idx, None)
  | row :: rest =>
      if is_start_marker row
      then find_from rest (i + 1) (Some (i + 1)%Z)
      else if is_end_marker row
      then (transaction_start_idx, Some (i - 1)%Z)
      else find_from rest (i + 1) transaction_start_idx
  end.

Definition find_transaction_data_indices (df : frame) : option Z * option Z :=
  find_from df 0 None.

(** No row of [rows] passes either test. *)
Definition unmarked (rows : frame) : bool :=
  forallb (fun row => negb (is_start_marker row) && negb (is_end_marker row)) rows.

(** What stops the extraction: the only exception lines 56 to 63 can raise
    is the [ValueError] of [df.columns = [...]] when the frame does not have
    seven columns. *)
Inductive error : Type :=
  | LengthMismatch (axis_length new_length : nat).

(** Lines 56 to 63: locate the table, slice it out, name the seven
    columns. *)
Definition extract_table (df_raw : frame) : error + frame :=
  let '(start_idx, end_idx) := find_transaction_data_indices df_raw in
  let df := slice start_idx end_idx df_raw in
  if Nat.eqb (ncols df_raw) 7 then inr df
  else inl (LengthMismatch (ncols df_raw) 7).

(** *** The ledger *)

(** [x > y] on two numbers *)
Definition Qgtb (x y : Q) : bool := negb (Qle_bool x y).

(** A row of [df] once the seven columns are named and the two amount
    columns are numeric (lines 63 to 70). *)
Record row : Type := {
  date : cell;
  value_dt : cell;
  narration : cell;
  chq_ref_number : cell;
  withdrawal_amt : Q;
  deposit_amt : Q;
  closing_balance : cell
}.

Section Normalizer.

(** pandas' reading of a text as a number, [None] when it is none. *)
Variable parse_number : string -> option Q.

(** [pd.to_numeric(_, errors='coerce')] on one cell; [None] is NaN. *)
Definition to_numeric (c : cell) : option Q :=
  match c with
  | NaN => None
  | Num v _ => Some v
  | Str s => parse_number s
  end.

(** [.fillna(0)] *)
Definition fillna0 (v : option Q) : Q :=
  match v with
  | Some q => q
  | None => 0
  end.

(** One row of the table under the seven column names. *)
Definition normalize (cells : list cell) : option row :=
  match cells with
  | [c_date; c_value; c_narr; c_ref; c_w; c_d; c_bal] =>
      Some {| date := c_date; value_dt := c_value; narration := c_narr;
              chq_ref_number := c_ref;
              withdrawal_amt := fillna0 (to_numeric c_w);
              deposit_amt := fillna0 (to_numeric c_d);
              closing_balance := c_bal |}
  | _ => None
  end.

End Normalizer.

Definition calculate_amount (r : row) : Q :=
  if Qgtb (withdrawal_amt r) 0 then withdrawal_amt r
  else if Qgtb (deposit_amt r) 0 then deposit_amt r
  else 0.

Definition calculate_transaction_type (r : row) : string :=
  if Qgtb (withdrawal_amt r) 0 then "withdrawal"
  else if Qgtb (deposit_amt r) 0 then "deposit"
  else "unknown".

(** *** Narration and category *)

Definition clean_text (text : cell) : string :=
  let text := lower (str text) in
  let text := sub_class (fun c => negb (alnum_space c)) " " text in
  strip (sub_class_plus isspace " " text).

(** The dictionary [categories], in the order of its declaration (the order
    in which [categories.items()] yields it). *)
Definition categories : list (string * list string) :=
  [ ("transfer", ["upi"; "imps"; "neft"; "rtgs"; "ib billpay"; "billpay"]);
    ("salary", ["salary"; "payroll"; "credit"]);
    ("shopping", ["amazon"; "flipkart"; "myntra"; "shopping"; "ecommerce"; "paytm"]);
    ("food", ["swiggy"; "zomato"; "food"; "restaurant"; "cafe";
              "luluinternationalsho"; "bakery"; "gpay"]);
    ("entertainment", ["netflix"; "youtube"; "spotify"; "entertainment"]);
    ("utilities", ["electricity"; "water"; "gas"; "bill"; "recharge"]);
    ("fuel", ["petrol"; "diesel"; "fuel"; "hpcl"; "bpcl"]);
    ("others", []) ].

(** The inner loop: some keyword of the list occurs in the narration. *)
Definition any_keyword_in (keywords : list string) (narration : string) : bool :=
  existsb (fun keyword => contains keyword narration) keywords.

(** The outer loop of [categorize_transaction] over what is left of
    [categories.items()]. *)
Fixpoint categorize_from (items : list (string * list string)) (narration : string)
    : string :=
  match items with
  | [] => "others"
  | (category, keywords) :: rest =>
      if any_keyword_in keywords narration then category
      else categorize_from rest narration
  end.

Definition categorize_transaction (narration : string) : string :=
  categorize_from categories narration.

(** A row of [df] with the derived columns (lines 91 to 126). *)
Record transaction : Type := {
  source : row;
  amount : Q;
  transaction_type : string;
  narration_clean : string;
  category : string
}.

Definition enrich (r : row) : transaction :=
  {| source := r;
     amount := calculate_amount r;
     transaction_type := calculate_transaction_type r;
     narration_clean := clean_text (narration r);
     category := categorize_transaction (clean_text (narration r)) |}.

(** *** Totals *)

(** [Series.sum()] *)
Definition Qsum (values : list Q) : Q := fold_right Qplus 0%Q values.

(** [df[df['transaction_type'] == kind]] *)
Definition of_type (kind : string) (df : list transaction) : list transaction :=
  List.filter (fun t => String.eqb (transaction_type t) kind) df.



(** [groupby] sorts the group keys; texts compare by code points. *)
Fixpoint insert_key (k : string) (keys : list string) : list string :=
  match keys with
  | [] => [k]
  | k' :: rest => if String.leb k k' then k :: keys else k' :: insert_key k rest
  end.

Definition sort_keys (keys : list string) : list string :=
  fold_right insert_key [] keys.

(** The rows of the group of key [k], in row order. *)
Definition rows_of {A : Type} (key : A -> string) (df : list A) (k : string)
    : list A :=
  List.filter (fun t => String.eqb (key t) k) df.

(** [df.groupby(key)]: one group per key present, keys ascending. *)
Definition groupby {A : Type} (key : A -> string) (df : list A)
    : list (string * list A) :=
  map (fun k => (k, rows_of key df k))
      (sort_keys (nodup string_dec (map key df))).

(** [df[df['transaction_type'] == 'withdrawal'].groupby('category')['amount'].sum()] *)
Definition category_spending (df : list transaction) : list (string * Q) :=
  map (fun g => (fst g, Qsum (map amount (snd g))))
      (groupby category (of_type "withdrawal" df)).

(** *** Sample inputs *)

(** A row with the two amounts given and nothing else filled in. *)
Definition row_of_amounts (w d : Q) : row :=
  {| date := NaN; value_dt := NaN; narration := NaN; chq_ref_number := NaN;
     withdrawal_amt := w; deposit_amt := d; closing_balance := NaN |}.

(** Both amounts filled in, the deposit the larger. *)
Definition both_amounts : row := row_of_amounts 1 2.

(** A row of seven cells holding one text. *)
Definition text_row (s : string) : list cell :=
  [Str s; NaN; NaN; NaN; NaN; NaN; NaN].

(** The row of column titles of a statement. *)
Definition titles : list cell :=
  [Str "Date"; Str "Value Dt"; Str "Narration"; Str "Chq/Ref Number";
   Str "Withdrawal Amt"; Str "Deposit Amt"; Str "Closing Balance"].

(** Two transactions of a statement. *)
Definition coffee : list cell :=
  [Str "01/04/24"; Str "01/04/24"; Str "UPI/CAFE"; Str "1001";
   Num 120 "120"; NaN; Num 880 "880"].

Definition rent : list cell :=
  [Str "02/04/24"; Str "02/04/24"; Str "NEFT/RENT"; Str "1002";
   Num 500 "500"; NaN; Num 380 "380"].

(** A sheet of seven columns with no row of titles. *)
Definition untitled_sheet : frame := [coffee; rent].

(** Titles, two transactions, and the summary line right after them. *)
Definition statement_sheet : frame :=
  [titles; coffee; rent; text_row "STATEMENT SUMMARY :-"].

(** Two rows that both give an e-mail address. *)
Definition two_emails : frame :=
  [text_row "Email : first@bank.example"; text_row "Email : second@bank.example"].

End Parser.

(** ** prediction_with_mutualfunds_recomendation.py *)

Module Prediction.

(** The first day of a month, as [to_timestamp] of a monthly period and the
    column [ds] of the forecaster have it. *)
Record timestamp : Type := {
  year : nat;
  month : nat;
  day : nat
}.

(** A row of [monthly_df]. *)
Record monthly : Type := {
  year_month : timestamp;
  closing_balance : Q
}.

(** *** Outliers *)

Fixpoint insert_sorted (x : Q) (l : list Q) : list Q :=
  match l with
  | [] => [x]
  | y :: l' => if Qle_bool x y then x :: l else y :: insert_sorted x l'
  end.

Definition sort (l : list Q) : list Q := fold_right insert_sorted [] l.

Inductive value_error : Type :=
  | PercentileOutOfRange.

(** [Series.quantile(q)] with pandas' default, linear interpolation: with
    the [n] values sorted, the quantile sits at position [q * (n - 1)],
    between the two values around that position.  A percentile outside
    [[0, 1]] is a [ValueError]; the quantile of no value is NaN, here
    [None]. *)
Definition quantile (values : list Q) (q : Q) : value_error + option Q :=
  if Qle_bool 0 q && Qle_bool q 1 then
    inr match sort values with
        | [] => None
        | (x :: _) as sorted =>
            let n := List.length sorted in
            let position := (q * inject_Z (Z.of_nat (n - 1)))%Q in
            let i := Z.to_nat (Qfloor position) in
            let fraction := (position - inject_Z (Qfloor position))%Q in
            let below := nth i sorted x in
            let above := nth (Nat.min (i + 1) (n - 1)) sorted x in
            Some (below + (above - below) * fraction)%Q
        end
  else inl PercentileOutOfRange.

(** [value >= lower] and [value <= upper]; a comparison with NaN is false. *)
Definition ge_bound (value : Q) (lower : option Q) : bool :=
  match lower with
  | Some l => Qle_bool l value
  | None => false
  end.

Definition le_bound (value : Q) (upper : option Q) : bool :=
  match upper with
  | Some u => Qle_bool value u
  | None => false
  end.

Definition remove_outliers (monthly_df : list monthly) (lower_quantile upper_quantile : Q)
    : value_error + list monthly :=
  match quantile (map closing_balance monthly_df) lower_quantile with
  | inl e => inl e
  | inr lower =>
      match quantile (map closing_balance monthly_df) upper_quantile with
      | inl e => inl e
      | inr upper =>
          inr (List.filter
                 (fun p => ge_bound (closing_balance p) lower
                           && le_bound (closing_balance p) upper)
                 monthly_df)
      end
  end.

(** The default bounds of [remove_outliers]: 0.01 and 0.99. *)
Definition lower_quantile_default : Q := 1 # 100.
Definition upper_quantile_default : Q := 99 # 100.

(** *** The forecast *)

(** A row of the frame the forecaster returns; of its columns, the four the
    script reads. *)
Record prediction : Type := {
  ds : timestamp;
  yhat : Q;
  yhat_lower : Q;
  yhat_upper : Q
}.

(** A row of [display_df] and of [save_df]. *)
Record report_row : Type := {
  Date : string;
  Predicted_Closing_Balance : Q;
  Lower_Confidence_Interval : Q;
  Upper_Confidence_Interval : Q
}.

(** [max(x, 0)]: Python's [max] keeps its first argument unless the second
    is greater. *)
Definition floor0 (x : Q) : Q := if Qlt_le_dec x 0 then 0%Q else x.

(** [frame.tail(n)] *)
Definition tail {A : Type} (n : nat) (l : list A) : list A :=
  skipn (List.length l - n) l.

Definition two_digits (n : nat) : string :=
  let s := NilZero.string_of_uint (Nat.to_uint n) in
  if Nat.ltb n 10 then "0" ++ s else s.

(** [strftime('%Y-%m')] *)
Definition strftime_Ym (t : timestamp) : string :=
  NilZero.string_of_uint (Nat.to_uint (year t)) ++ "-" ++ two_digits (month t).

(** Selection of the four columns, renaming, and the month as text. *)
Definition report (frame : list prediction) : list report_row :=
  map (fun p => {| Date := strftime_Ym (ds p);
                   Predicted_Closing_Balance := yhat p;
                   Lower_Confidence_Interval := yhat_lower p;
                   Upper_Confidence_Interval := yhat_upper p |}) frame.

(** *** Frames as objects

    [main] passes one frame, [forecast], to three functions, two of which
    assign to columns.  A frame is therefore an object in a store, and a
    name such as [forecast] holds a reference to it.  [frame.tail(n)] makes
    a new object; [frame[col] = values] replaces the column of the object it
    is applied to, and of no other. *)

Definition obj : Type := nat.

Abbreviation store := (list (list prediction)).

(** A computation on the store. *)
Definition M (A : Type) : Type := store -> A * store.

Definition ret {A : Type} (x : A) : M A := fun s => (x, s).

Definition bind {A B : Type} (c : M A) (k : A -> M B) : M B :=
  fun s => let '(x, s') := c s in k x s'.

Notation "'let*' x ':=' c 'in' k" := (bind c (fun x => k))
  (at level 10, x binder, c at level 100, k at level 200, only parsing).

(** The rows of the object [df]. *)
Definition contents (s : store) (df : obj) : list prediction :=
  default [] (s !! df).

Definition read (df : obj) : M (list prediction) :=
  fun s => (contents s df, s).

(** [df.tail(n)], a new object. *)
Definition frame_tail (df : obj) (n : nat) : M obj :=
  fun s => (List.length s, (s ++ [tail n (contents s df)])%list).

(** [df[col] = df[col].apply(f)], [update] being [f] on the column [col]. *)
Definition set_column (df : obj) (update : prediction -> prediction) : M unit :=
  fun s => (tt, <[df := map update (contents s df)]> s).

(** [lambda x: max(x, 0)] on each of the three columns. *)
Definition floor_yhat (p : prediction) : prediction :=
  {| ds := ds p; yhat := floor0 (yhat p);
     yhat_lower := yhat_lower p; yhat_upper := yhat_upper p |}.

Definition floor_yhat_lower (p : prediction) : prediction :=
  {| ds := ds p; yhat := yhat p;
     yhat_lower := floor0 (yhat_lower p); yhat_upper := yhat_upper p |}.

Definition floor_yhat_upper (p : prediction) : prediction :=
  {| ds := ds p; yhat := yhat p;
     yhat_lower := yhat_lower p; yhat_upper := floor0 (yhat_upper p) |}.

(** [display_forecast]: the table [display_df], before its three balances
    are turned into text by [format_indian_currency]. *)
Definition display_forecast (forecast : obj) (periods : nat) : M (list report_row) :=
  let* forecast_future := frame_tail forecast periods in
  let* _ := set_column forecast_future floor_yhat in
  let* _ := set_column forecast_future floor_yhat_lower in
  let* _ := set_column forecast_future floor_yhat_upper in
  let* display_df := read forecast_future in
  ret (report display_df).

(** [save_forecast_to_excel]: the table [save_df] written to the file. *)
Definition save_forecast_to_excel (forecast : obj) (periods : nat)
    : M (list report_row) :=
  let* forecast_future := frame_tail forecast periods in
  let* save_df := read forecast_future in
  ret (report save_df).

(** [plot_forecast]: the rows whose three series are drawn. *)
Definition plot_forecast (forecast : obj) : M (list prediction) :=
  let* _ := set_column forecast floor_yhat in
  let* _ := set_column forecast floor_yhat_lower in
  let* _ := set_column forecast floor_yhat_upper in
  read forecast.

(** Steps 9, 10 and 11 of [main], in their order: what is displayed and what
    is saved. *)
Definition main_steps_9_to_11 (forecast : obj)
    : M (list report_row * list report_row) :=
  let* displayed := display_forecast forecast 36 in
  let* saved := save_forecast_to_excel forecast 36 in
  let* _ := plot_forecast forecast in
  ret (displayed, saved).

(** All three columns floored. *)
Definition floor_columns (frame : list prediction) : list prediction :=
  map (fun p => {| ds := ds p;
                   yhat := floor0 (yhat p);
                   yhat_lower := floor0 (yhat_lower p);
                   yhat_upper := floor0 (yhat_upper p) |}) frame.

(** The rows of a table all of whose three balances are at least zero. *)
Definition nonnegative_row (r : report_row) : Prop :=
  (0 <= Predicted_Closing_Balance r /\
   0 <= Lower_Confidence_Interval r /\
   0 <= Upper_Confidence_Interval r)%Q.

(** *** Sample inputs *)

Definition first_of (y m : nat) : timestamp := {| year := y; month := m; day := 1 |}.

Definition january : monthly :=
  {| year_month := first_of 2024 1; closing_balance := 100 |}.
Definition february : monthly :=
  {| year_month := first_of 2024 2; closing_balance := -50 |}.
Definition march : monthly :=
  {| year_month := first_of 2024 3; closing_balance := 9000 |}.

(** The series (Jan, 100), (Feb, -50), (Mar, 9000). *)
Definition three_months : list monthly := [january; february; march].

(** Five months, the balance growing by 1000 a month. *)
Definition growing (m : nat) : monthly :=
  {| year_month := first_of 2024 m;
     closing_balance := inject_Z (1000 * Z.of_nat m) |}.

Definition five_months : list monthly :=
  [growing 1; growing 2; growing 3; growing 4; growing 5].

(** A forecast of 38 months, two of history (November and December 2024)
    and 36 ahead (the ends of the months of 2025 to 2027): the estimate
    falls by 100 a month from 3500, the bounds are 500 away from it. *)
Definition month_end (m : nat) : nat :=
  nth (m - 1) [31; 28; 31; 30; 31; 30; 31; 31; 30; 31; 30; 31]%nat 31%nat.

Definition declining (k : nat) : prediction :=
  let m := (1 + (10 + k) mod 12)%nat in
  {| ds := {| year := 2024 + (10 + k) / 12; month := m;
              day := if Nat.ltb k 2 then 1%nat else month_end m |};
     yhat := inject_Z (3500 - 100 * Z.of_nat k);
     yhat_lower := inject_Z (3000 - 100 * Z.of_nat k);
     yhat_upper := inject_Z (4000 - 100 * Z.of_nat k) |}.

Definition declining_forecast : list prediction := map declining (seq 0 38).

End Prediction.

(** ** Grouping by time: what both scripts do with [groupby] on dates *)

Module Frames.
Import Prediction.

(** A pandas [Timestamp]: a day and the time within the day. *)
Record instant : Type := {
  on_day : timestamp;
  nanosecond : N
}.

Definition timestamp_eqb (a b : timestamp) : bool :=
  Nat.eqb (year a) (year b) && Nat.eqb (month a) (month b) && Nat.eqb (day a) (day b).

Definition timestamp_leb (a b : timestamp) : bool :=
  if Nat.eqb (year a) (year b) then
    if Nat.eqb (month a) (month b) then Nat.leb (day a) (day b)
    else Nat.ltb (month a) (month b)
  else Nat.ltb (year a) (year b).

Definition instant_eqb (a b : instant) : bool :=
  timestamp_eqb (on_day a) (on_day b) && N.eqb (nanosecond a) (nanosecond b).

Definition instant_leb (a b : instant) : bool :=
  if timestamp_eqb (on_day a) (on_day b) then N.leb (nanosecond a) (nanosecond b)
  else timestamp_leb (on_day a) (on_day b).

(** [.dt.to_period('M')], the month named by its first day, which is what
    [to_timestamp()] makes of it. *)
Definition to_period_M (t : instant) : timestamp :=
  {| year := year (on_day t); month := month (on_day t); day := 1 |}.

Section GroupBy.

Context {K A : Type} (eqb leb : K -> K -> bool).

Fixpoint insert_by (k : K) (keys : list K) : list K :=
  match keys with
  | [] => [k]
  | k' :: rest => if leb k k' then k :: keys else k' :: insert_by k rest
  end.

Definition sort_by (keys : list K) : list K := fold_right insert_by [] keys.

(** Each key once. *)
Fixpoint distinct (keys : list K) : list K :=
  match keys with
  | [] => []
  | k :: rest => if existsb (eqb k) rest then distinct rest else k :: distinct rest
  end.

(** The rows whose key is [k]; a row without a key (NaT) is in no group. *)
Definition keyed (key : A -> option K) (k : K) (df : list A) : list A :=
  List.filter (fun r => match key r with
                        | Some k' => eqb k' k
                        | None => false
                        end) df.

(** [df.groupby(key)]: the keys present in ascending order, each with its
    rows in row order. *)
Definition group_by (key : A -> option K) (df : list A) : list (K * list A) :=
  map (fun k => (k, keyed key k df)) (sort_by (distinct (omap key df))).

End GroupBy.



(** Strictly earlier, for days and for months. *)
Definition earlier (a b : timestamp) : Prop :=
  (year a < year b \/
   (year a = year b /\ (month a < month b \/ (month a = month b /\ day a < day b))))%nat.

(** [Series.mean()] of numbers, at least one. *)
Definition mean (values : list Q) : Q :=
  (Parser.Qsum values / inject_Z (Z.of_nat (List.length values)))%Q.

(** The numbers of a column that may hold NaN ([None]). *)
Definition valid (values : list (option Q)) : list Q := omap id values.


Definition nanmean (values : list (option Q)) : option Q :=
  match valid values with
  | [] => None
  | vs => Some (mean vs)
  end.

Definition nanlast (values : list (option Q)) : option Q :=
  last (valid values).

End Frames.

(** ** The parser, continued: patterns, dates, spending over time *)

Module Spending.
Import Py Parser Prediction Frames.

(** A pattern without groups. *)
Fixpoint groupless (r : regex) : bool :=
  match r with
  | Group _ _ => false
  | Seq r1 r2 | Alt r1 r2 => groupless r1 && groupless r2
  | _ => true
  end.

(** The five keys [extract_header_info] can write. *)
Definition header_keys : list string :=
  ["Statement Period"; "Account Number"; "Email"; "Name"; "Customer ID"].

(** A sheet giving an account number, a customer number and a holder. *)
Definition account_sheet : frame :=
  [text_row "Account No : 50100123456"; text_row "Cust ID : 778899";
   text_row "MRS JANE DOE"].

(** *** Spending over time (lines 152 to 192) *)

Section OverTime.

(** [pd.to_datetime(_, dayfirst=True, errors='coerce')] on one cell of the
    column [date]; [None] is NaT, what a cell that is no date becomes. *)
Variable to_datetime : cell -> option instant.

(** The column [date] after line 95. *)
Definition date_of (t : transaction) : option instant :=
  to_datetime (date (source t)).



(** The frame [daily_spending]: its columns [date] and [amount]. *)
Definition daily_spending (df : list transaction) : list (instant * Q) :=
  map (fun g => (fst g, Qsum (map amount (snd g))))
      (group_by instant_eqb instant_leb date_of (of_type "withdrawal" df)).



(** [daily_spending['amount'].mean()]: NaN, here [None], when no withdrawal
    has a date. *)
Definition average_daily_spending (df : list transaction) : option Q :=
  match daily_spending df with
  | [] => None
  | rows => Some (mean (map snd rows))
  end.

End OverTime.

(** [nlargest(10, 'amount')]: the rows by descending amount, rows of equal
    amount in row order, and the first ten of them. *)
Fixpoint insert_larger (t : transaction) (sorted : list transaction)
    : list transaction :=
  match sorted with
  | [] => [t]
  | u :: rest =>
      if Qle_bool (amount u) (amount t) then t :: sorted
      else u :: insert_larger t rest
  end.

Definition by_amount_descending (df : list transaction) : list transaction :=
  fold_right insert_larger [] df.

Definition top_expenses (df : list transaction) : list transaction :=
  firstn 10 (by_amount_descending (of_type "withdrawal" df)).

(** *** Sample inputs *)





End Spending.

(** ** The forecast script, continued: monthly series, expenses, the plan *)

Module Planning.
Import Py Prediction Frames.

(** *** Monthly series

    The functions below name the columns they read.  A column is given
    here by what it holds in a row: a date ([None] is NaT) or a number
    ([None] is NaN); the frame is taken to have the columns named. *)

Section Aggregation.

Context {A : Type}.

(** [df['year_month'] = df[date_col].dt.to_period('M')] *)
Definition year_month_of (date_col : A -> option instant) (r : A) : option timestamp :=
  match date_col r with
  | Some d => Some (to_period_M d)
  | None => None
  end.

(** The frame returned has the columns [year_month] and [balance_col]. *)
Definition aggregate_monthly_last (df : list A) (date_col : A -> option instant)
    (balance_col : A -> option Q) : list (timestamp * option Q) :=
  map (fun g => (fst g, nanlast (map balance_col (snd g))))
      (group_by timestamp_eqb timestamp_leb (year_month_of date_col) df).

Definition aggregate_monthly_average (df : list A) (date_col : A -> option instant)
    (balance_col : A -> option Q) : list (timestamp * option Q) :=
  map (fun g => (fst g, nanmean (map balance_col (snd g))))
      (group_by timestamp_eqb timestamp_leb (year_month_of date_col) df).

Inductive error : Type :=
  | KeyError (key : string)
  | TypeError.


End Aggregation.

(** *** The amount to invest *)

(** [max(investable, 0)] is [floor0]. *)
Definition determine_investable_amount (current_balance average_expense : Q) : Q :=
  let investable := (current_balance - (average_expense + (1 # 10) * average_expense))%Q in
  floor0 investable.

Definition get_investment_strategy (age : Z) : string * Q :=
  if (20 <=? age)%Z && (age <? 30)%Z then ("High", 1 # 10)
  else if (30 <=? age)%Z && (age <? 40)%Z then ("Moderate-High", 175 # 1000)
  else if (40 <=? age)%Z && (age <? 50)%Z then ("Moderate", 225 # 1000)
  else if (50 <=? age)%Z && (age <? 60)%Z then ("Low-Moderate", 275 # 1000)
  else ("Low", 225 # 1000).

(** The dictionary with the two keys 'Equities' and 'Debt'. *)
Record allocation : Type := {
  Equities : Q;
  Debt : Q
}.

Definition get_risk_allocation (risk_tolerance : string) : allocation :=
  if String.eqb risk_tolerance "High" then {| Equities := 75 # 100; Debt := 25 # 100 |}
  else if String.eqb risk_tolerance "Moderate-High"
  then {| Equities := 65 # 100; Debt := 35 # 100 |}
  else if String.eqb risk_tolerance "Moderate"
  then {| Equities := 55 # 100; Debt := 45 # 100 |}
  else if String.eqb risk_tolerance "Low-Moderate"
  then {| Equities := 40 # 100; Debt := 60 # 100 |}
  else {| Equities := 20 # 100; Debt := 80 # 100 |}.

(** What [create_investment_plan] prints of the strategy, before the amounts
    are turned into text. *)
Record plan : Type := {
  risk_tolerance : string;
  total_investment : Q;
  equity_investment : Q;
  debt_investment : Q
}.

Definition create_investment_plan (age : Z) (investable_amount : Q) : plan :=
  let '(risk_tolerance, investment_percent) := get_investment_strategy age in
  let allocation := get_risk_allocation risk_tolerance in
  let total_investment := (investable_amount * investment_percent)%Q in
  {| risk_tolerance := risk_tolerance;
     total_investment := total_investment;
     equity_investment := (total_investment * Equities allocation)%Q;
     debt_investment := (total_investment * Debt allocation)%Q |}.

(** *** The funds *)

Record fund : Type := {
  Fund_Name : string;
  Return_1_Year : Q;
  Return_3_Year : Q;
  Return_5_Year : Q;
  Max_Since_Inception : Q
}.

Definition mk_fund (name : string) (r1 r3 r5 rmax : Q) : fund :=
  {| Fund_Name := name; Return_1_Year := r1; Return_3_Year := r3;
     Return_5_Year := r5; Max_Since_Inception := rmax |}.

Definition funds_data : gmap string (list fund) :=
  <["High" :=
      [ mk_fund "Fund A (High Risk Category)" (123 # 10) (85 # 10) (107 # 10) (152 # 10);
        mk_fund "Fund B (High Risk Category)" (156 # 10) (103 # 10) (128 # 10) (175 # 10);
        mk_fund "Fund C (High Risk Category)" (182 # 10) (121 # 10) (145 # 10) (193 # 10);
        mk_fund "Fund D (High Risk Category)" (201 # 10) (150 # 10) (162 # 10) (214 # 10);
        mk_fund "Fund E (High Risk Category)" (220 # 10) (172 # 10) (183 # 10) (236 # 10) ]]>
  (<["Medium" :=
      [ mk_fund "Fund A (Medium Risk Category)" (85 # 10) (63 # 10) (72 # 10) (100 # 10);
        mk_fund "Fund B (Medium Risk Category)" (102 # 10) (80 # 10) (90 # 10) (123 # 10);
        mk_fund "Fund C (Medium Risk Category)" (121 # 10) (95 # 10) (103 # 10) (142 # 10);
        mk_fund "Fund D (Medium Risk Category)" (140 # 10) (112 # 10) (124 # 10) (160 # 10);
        mk_fund "Fund E (Medium Risk Category)" (158 # 10) (130 # 10) (145 # 10) (180 # 10) ]]>
  (<["Low" :=
      [ mk_fund "Fund A (Low Risk Category)" (53 # 10) (40 # 10) (52 # 10) (65 # 10);
        mk_fund "Fund B (Low Risk Category)" (61 # 10) (53 # 10) (61 # 10) (75 # 10);
        mk_fund "Fund C (Low Risk Category)" (70 # 10) (62 # 10) (70 # 10) (83 # 10);
        mk_fund "Fund D (Low Risk Category)" (78 # 10) (70 # 10) (78 # 10) (95 # 10);
        mk_fund "Fund E (Low Risk Category)" (85 # 10) (78 # 10) (86 # 10) (105 # 10) ]]>
   ∅)).

(** [str.capitalize]: the first character in title case, the others in lower
    case.  Title case moves a..z and the lower-case letters of Latin-1
    (224..254 but the division sign 247) down by 32; it turns the sharp s
    (223) into "Ss"; for the micro sign (181) and the y with diaeresis (255)
    it leaves the code points 0..255, and the result is [None]. *)
Definition title_first (c : ascii) : option string :=
  if (code c =? 181)%N || (code c =? 255)%N then None
  else if (code c =? 223)%N then Some "Ss"
  else if between 97 122 c || (between 224 254 c && negb (code c =? 247)%N)
  then Some (String (ascii_of_N (code c - 32)) "")
  else Some (String c "").

Definition capitalize (s : string) : option string :=
  match s with
  | EmptyString => Some ""
  | String c rest =>
      match title_first c with
      | Some first => Some (first ++ lower rest)
      | None => None
      end
  end.

(** [suggest_mutual_fund]: [None] for a category that is no key of
    [funds_data]; a text with a character beyond 255 is no key. *)
Definition suggest_mutual_fund (risk_category : string) : option (list fund) :=
  match capitalize risk_category with
  | Some risk_category => funds_data !! risk_category
  | None => None
  end.

(** *** The end of [main] *)

(** [forecast.iloc[-1]['yhat']]; an empty frame has no last row. *)
Definition last_yhat (forecast : obj) : M (option Q) :=
  let* rows := read forecast in
  ret (match last rows with
       | Some p => Some (yhat p)
       | None => None
       end).

(** What [main] ends with. *)
Inductive outcome : Type :=
  | IndexError
  | NoInvestableAmount
  | NoFundsData
  | Planned (p : plan).

(** Steps 9 to 17 of [main]: the forecast is displayed, saved and plotted,
    its last estimate is taken as the current balance, and the plan is made
    if something can be invested and the file of the funds could be read.
    [age] is what [get_user_age] returns, [mutual_funds] whether
    [load_mutual_funds] returned the funds. *)
Definition main_steps_9_to_17 (forecast : obj) (average_expense : Q) (age : Z)
    (mutual_funds : bool) : M outcome :=
  let* _ := main_steps_9_to_11 forecast in
  let* current_balance := last_yhat forecast in
  ret (match current_balance with
       | None => IndexError
       | Some current_balance =>
           let investable_amount :=
             determine_investable_amount current_balance average_expense in
           if Qle_bool investable_amount 0 then NoInvestableAmount
           else if mutual_funds then Planned (create_investment_plan age investable_amount)
           else NoFundsData
       end).

(** *** Sample inputs *)

(** A row of the daily data: its date, its closing balance, its withdrawal. *)
Record entry : Type := {
  entry_date : option instant;
  entry_balance : option Q;
  entry_withdrawal : option Q
}.

(** The numeric columns of the daily data, by name. *)
Definition entry_number (col : string) (e : entry) : option Q :=
  if String.eqb col "closing_balance" then entry_balance e
  else if String.eqb col "withdrawal_amt" then entry_withdrawal e
  else None.

Definition at_midnight (y m d : nat) : instant :=
  {| on_day := {| year := y; month := m; day := d |}; nanosecond := 0 |}.

(** Three rows of March 2024, not in the order of their days, and one of
    April. *)
Definition daily_data : list entry :=
  [ {| entry_date := Some (at_midnight 2024 3 20);
       entry_balance := Some 700%Q; entry_withdrawal := Some 300%Q |};
    {| entry_date := Some (at_midnight 2024 3 5);
       entry_balance := Some 1000%Q; entry_withdrawal := Some 100%Q |};
    {| entry_date := Some (at_midnight 2024 4 2);
       entry_balance := Some 400%Q; entry_withdrawal := Some 600%Q |};
    {| entry_date := Some (at_midnight 2024 3 28);
       entry_balance := None; entry_withdrawal := None |} ].

End Planning.

(** ** Facts on the Python side *)

Module PyFacts.
Import Py.

(** [needle in hay], as a proposition. *)
Lemma strip_prefix_spec (p s r : string) :
  strip_prefix p s = Some r <-> s = p ++ r.
Proof.
  revert s; induction p as [|a p IH]; intros s; simpl.
  - split; [intros [= ->] | intros ->]; reflexivity.
  - destruct s as [|b s]; [split; intros H; discriminate H|].
    destruct (Ascii.eqb_spec a b) as [->|Hab].
    + rewrite IH. split; [intros ->; reflexivity | intros [= ->]; reflexivity].
    + split; [intros H; discriminate H | intros [= <- _]; contradiction].
Qed.

Lemma contains_spec (needle hay : string) :
  contains needle hay = true <-> exists a b, hay = a ++ needle ++ b.
Proof.
  split.
  - induction hay as [|c hay IH]; simpl.
    + destruct (strip_prefix needle "") as [r|] eqn:E; [|discriminate].
      intros _. apply strip_prefix_spec in E. now exists "", r.
    + destruct (strip_prefix needle (String c hay)) as [r|] eqn:E.
      * intros _. apply strip_prefix_spec in E. now exists "", r.
      * intros H. destruct (IH H) as (a & b & ->). now exists (String c a), b.
  - intros (a & b & ->). induction a as [|c a IH]; simpl.
    + assert (E : strip_prefix needle (needle ++ b) = Some b)
        by (apply strip_prefix_spec; reflexivity).
      destruct (needle ++ b); simpl; now rewrite E.
    + simpl in IH. now destruct (strip_prefix needle (String c (a ++ needle ++ b))).
Qed.

(** *** A cleaned text is clean, and cleaning leaves it as it is *)

Ltac by_cases_on c :=
  destruct c as [[] [] [] [] [] [] [] []]; vm_compute; intros H;
  first [reflexivity | discriminate H].

Lemma lower_char_kept_clean (c : ascii) :
  alnum_space (lower_char c) = true -> clean_char (lower_char c) = true.
Proof. by_cases_on c. Qed.

Lemma lower_char_clean (c : ascii) : clean_char c = true -> lower_char c = c.
Proof. by_cases_on c. Qed.

Lemma clean_char_alnum_space (c : ascii) :
  clean_char c = true -> alnum_space c = true.
Proof. by_cases_on c. Qed.

Lemma lower_clean (s : string) : all_chars clean_char s = true -> lower s = s.
Proof.
  induction s as [|c s IH]; simpl; [reflexivity|].
  intros [Hc Hs]%andb_prop. now rewrite lower_char_clean, IH.
Qed.

Lemma sub_class_clean (s : string) :
  all_chars clean_char s = true ->
  sub_class (fun c => negb (alnum_space c)) " " s = s.
Proof.
  induction s as [|c s IH]; simpl; [reflexivity|].
  intros [Hc Hs]%andb_prop. now rewrite (clean_char_alnum_space c Hc), IH.
Qed.

Lemma sub_class_lower_clean (s : string) :
  all_chars clean_char (sub_class (fun c => negb (alnum_space c)) " " (lower s)) = true.
Proof.
  induction s as [|c s IH]; simpl; [reflexivity|].
  destruct (alnum_space (lower_char c)) eqn:E; simpl.
  - now rewrite (lower_char_kept_clean c E).
  - exact IH.
Qed.

Lemma sub_runs_clean (b : bool) (s : string) :
  all_chars clean_char s = true ->
  all_chars clean_char (sub_runs isspace " " b s) = true.
Proof.
  revert b; induction s as [|c s IH]; intros b; simpl; [reflexivity|].
  intros [Hc Hs]%andb_prop.
  destruct (isspace c); [destruct b|].
  - now apply IH.
  - change (clean_char " " && all_chars clean_char (sub_runs isspace " " true s) = true).
    now rewrite IH.
  - simpl. now rewrite Hc, IH.
Qed.

Lemma sub_runs_single_spaced (b : bool) (s : string) :
  single_spaced b (sub_runs isspace " " b s) = true.
Proof.
  revert b; induction s as [|c s IH]; intros b; simpl; [reflexivity|].
  destruct (isspace c) eqn:E; [destruct b|]; simpl; rewrite ?E; auto.
Qed.

Lemma sub_runs_fixed (b : bool) (s : string) :
  single_spaced b s = true -> sub_runs isspace " " b s = s.
Proof.
  revert b; induction s as [|c s IH]; intros b; simpl; [reflexivity|].
  destruct (isspace c).
  - intros [[Hb Hc%Ascii.eqb_eq]%andb_prop Hs]%andb_prop.
    destruct b; [discriminate|]. subst c. simpl. now rewrite IH.
  - intros Hs. now rewrite IH.
Qed.

Lemma lstrip_clean (s : string) :
  all_chars clean_char s = true -> all_chars clean_char (lstrip s) = true.
Proof.
  induction s as [|c s IH]; simpl; [reflexivity|].
  intros [Hc Hs]%andb_prop. destruct (isspace c); simpl; rewrite ?Hc; auto.
Qed.

Lemma rstrip_clean (s : string) :
  all_chars clean_char s = true -> all_chars clean_char (rstrip s) = true.
Proof.
  induction s as [|c s IH]; simpl; [reflexivity|].
  intros [Hc Hs]%andb_prop. specialize (IH Hs).
  destruct (rstrip s); [destruct (isspace c)|]; simpl in *; rewrite ?Hc; auto.
Qed.

Lemma lstrip_no_leading_space (s : string) : no_leading_space (lstrip s) = true.
Proof.
  induction s as [|c s IH]; simpl; [reflexivity|].
  destruct (isspace c) eqn:E; simpl; [exact IH | now rewrite E].
Qed.

Lemma lstrip_fixed (s : string) : no_leading_space s = true -> lstrip s = s.
Proof. destruct s as [|c s]; simpl; [reflexivity|]. now destruct (isspace c). Qed.

Lemma lstrip_single_spaced (b b' : bool) (s : string) :
  single_spaced b s = true -> single_spaced b' (lstrip s) = true.
Proof.
  revert b; induction s as [|c s IH]; intros b; simpl; [reflexivity|].
  destruct (isspace c) eqn:E; simpl; rewrite ?E.
  - intros [_ Hs]%andb_prop. now apply (IH true).
  - auto.
Qed.

Lemma rstrip_no_leading_space (s : string) :
  no_leading_space s = true -> no_leading_space (rstrip s) = true.
Proof.
  destruct s as [|c s]; simpl; [reflexivity|].
  intros H. destruct (rstrip s); [|exact H].
  apply negb_true_iff in H. rewrite H. simpl. now rewrite H.
Qed.

Lemma rstrip_single_spaced (b : bool) (s : string) :
  single_spaced b s = true -> single_spaced b (rstrip s) = true.
Proof.
  revert b; induction s as [|c s IH]; intros b; simpl; [reflexivity|].
  destruct (isspace c) eqn:E.
  - intros [Hbc Hs]%andb_prop. specialize (IH true Hs).
    destruct (rstrip s); simpl; rewrite ?E; [reflexivity|].
    rewrite Hbc. exact IH.
  - intros Hs. specialize (IH false Hs).
    destruct (rstrip s); simpl; rewrite ?E; [reflexivity | exact IH].
Qed.

Lemma rstrip_idempotent (s : string) : rstrip (rstrip s) = rstrip s.
Proof.
  induction s as [|c s IH]; simpl; [reflexivity|].
  destruct (rstrip s) as [|d r] eqn:Er.
  - destruct (isspace c) eqn:E; simpl; [reflexivity | now rewrite E].
  - simpl in *. now rewrite IH.
Qed.

End PyFacts.

(** ** Facts on the statement parser *)

Module ParserFacts.
Import Py PyFacts Parser.

Local Open Scope Q_scope.

(** *** Amount and kind of a transaction *)

Lemma Qgtb_spec (x y : Q) : Qgtb x y = true <-> y < x.
Proof.
  unfold Qgtb. rewrite negb_true_iff, <- not_true_iff_false, Qle_bool_iff.
  split; [apply Qnot_le_lt | apply Qlt_not_le].
Qed.

Lemma Qgtb_false (x y : Q) : Qgtb x y = false <-> x <= y.
Proof. unfold Qgtb. now rewrite negb_false_iff, Qle_bool_iff. Qed.

(** The coercion of the two amount columns: an empty cell and a text that
    is no number become 0; a number is kept as it is, whatever its sign. *)
Lemma fillna0_blank (parse_number : string -> option Q) :
  fillna0 (to_numeric parse_number NaN) = 0.
Proof. reflexivity. Qed.

Lemma fillna0_not_a_number (parse_number : string -> option Q) (s : string) :
  parse_number s = None -> fillna0 (to_numeric parse_number (Str s)) = 0.
Proof. intros H. simpl. now rewrite H. Qed.

Lemma fillna0_number (parse_number : string -> option Q) (v : Q) (r : string) :
  fillna0 (to_numeric parse_number (Num v r)) = v.
Proof. reflexivity. Qed.

(** C1, as the code has it: a record with both amounts filled in takes its
    amount from the withdrawal, which need not be the larger of the two. *)
Lemma C1_amount_is_not_the_max :
  0 <= withdrawal_amt both_amounts /\ 0 <= deposit_amt both_amounts /\
  amount (enrich both_amounts) == 1 /\
  transaction_type (enrich both_amounts) = "withdrawal" /\
  Qmax (withdrawal_amt both_amounts) (deposit_amt both_amounts) == 2 /\
  ~ amount (enrich both_amounts)
    == Qmax (withdrawal_amt both_amounts) (deposit_amt both_amounts).
Proof.
  repeat split; try (vm_compute; congruence).
Qed.

(** C1 (amended): for a record whose two amounts are not negative, the
    amount is the larger of the two whenever at most one of them is filled
    in; the withdrawal has priority (a positive withdrawal is the amount,
    whatever the deposit); the kind is 'withdrawal' exactly when the
    withdrawal is positive, 'deposit' exactly when the withdrawal is zero
    and the deposit positive, 'unknown' exactly when both are zero; and an
    unknown kind has amount zero. *)
Theorem C1_amount_and_kind (r : row) :
  0 <= withdrawal_amt r -> 0 <= deposit_amt r ->
  (withdrawal_amt r == 0 \/ deposit_amt r == 0 ->
   amount (enrich r) == Qmax (withdrawal_amt r) (deposit_amt r)) /\
  (0 < withdrawal_amt r -> amount (enrich r) = withdrawal_amt r) /\
  (transaction_type (enrich r) = "withdrawal" <-> 0 < withdrawal_amt r) /\
  (transaction_type (enrich r) = "deposit"
   <-> withdrawal_amt r == 0 /\ 0 < deposit_amt r) /\
  (transaction_type (enrich r) = "unknown"
   <-> withdrawal_amt r == 0 /\ deposit_amt r == 0) /\
  (transaction_type (enrich r) = "unknown" -> amount (enrich r) == 0).
Proof.
  intros Hw Hd. cbn [enrich amount transaction_type].
  unfold calculate_amount, calculate_transaction_type.
  destruct (Qgtb (withdrawal_amt r) 0) eqn:Ew.
  - apply Qgtb_spec in Ew.
    assert (Hne : ~ withdrawal_amt r == 0)
      by (intros E; rewrite E in Ew; exact (Qlt_irrefl _ Ew)).
    repeat split; try discriminate; try tauto.
    intros [E|E]; [tauto|]. symmetry. apply Q.max_l. now rewrite E.
  - apply Qgtb_false in Ew.
    assert (Hz : withdrawal_amt r == 0) by now apply Qle_antisym.
    assert (Hnw : ~ 0 < withdrawal_amt r) by now apply Qle_not_lt.
    destruct (Qgtb (deposit_amt r) 0) eqn:Ed.
    + apply Qgtb_spec in Ed.
      assert (Hne : ~ deposit_amt r == 0)
        by (intros E; rewrite E in Ed; exact (Qlt_irrefl _ Ed)).
      repeat split; try discriminate; try tauto.
      intros _. symmetry. apply Q.max_r. now rewrite Hz.
    + apply Qgtb_false in Ed.
      assert (Hzd : deposit_amt r == 0) by now apply Qle_antisym.
      assert (Hnd : ~ 0 < deposit_amt r) by now apply Qle_not_lt.
      repeat split; try discriminate; try tauto; try reflexivity.
      intros _. symmetry. rewrite Hz, Hzd. reflexivity.
Qed.

Lemma C1_amount_and_kind_witness :
  0 <= withdrawal_amt (row_of_amounts 0 250) /\
  0 <= deposit_amt (row_of_amounts 0 250) /\
  amount (enrich (row_of_amounts 0 250))
    == Qmax (withdrawal_amt (row_of_amounts 0 250)) (deposit_amt (row_of_amounts 0 250)) /\
  transaction_type (enrich (row_of_amounts 0 250)) = "deposit".
Proof.
  assert (Hw : 0 <= withdrawal_amt (row_of_amounts 0 250)) by (vm_compute; congruence).
  assert (Hd : 0 <= deposit_amt (row_of_amounts 0 250)) by (vm_compute; congruence).
  destruct (C1_amount_and_kind (row_of_amounts 0 250) Hw Hd) as (Hmax & _ & _ & Hdep & _).
  split; [exact Hw|]. split; [exact Hd|]. split.
  - apply Hmax. left. reflexivity.
  - apply Hdep. split; [reflexivity | reflexivity].
Defined.

Local Close Scope Q_scope.

(** *** The table locator *)

Lemma slice_all {A : Type} (l : list A) : slice None None l = l.
Proof.
  unfold slice. simpl. rewrite Z.sub_0_r, Nat2Z.id. apply firstn_all.
Qed.

Lemma slice_from_top {A : Type} (stop : option Z) (l : list A) :
  exists k, slice None stop l = firstn k l.
Proof. unfold slice. simpl. eexists. reflexivity. Qed.

Lemma find_from_unmarked (rows : frame) (i : Z) :
  forallb (fun row => negb (is_start_marker row)) rows = true ->
  fst (find_from rows i None) = None.
Proof.
  revert i; induction rows as [|row rows IH]; intros i; simpl; [reflexivity|].
  intros [Hrow Hrows]%andb_prop. apply negb_true_iff in Hrow.
  rewrite Hrow. destruct (is_end_marker row); [reflexivity | now apply IH].
Qed.

Lemma find_from_no_marker (rows : frame) (i : Z) (start : option Z) :
  forallb (fun row => negb (is_start_marker row)) rows = true ->
  forallb (fun row => negb (is_end_marker row)) rows = true ->
  find_from rows i start = (start, None).
Proof.
  revert i; induction rows as [|row rows IH]; intros i; simpl; [reflexivity|].
  intros [Hrow Hrows]%andb_prop [Hend Hends]%andb_prop.
  apply negb_true_iff in Hrow, Hend.
  rewrite Hrow, Hend. now apply IH.
Qed.

(** C2, as the code has it: a sheet of seven columns without a row of
    titles is sliced with both indices [None], and comes back whole. *)
Lemma C2_no_titles_no_failure :
  existsb is_start_marker untitled_sheet = false /\
  find_transaction_data_indices untitled_sheet = (None, None) /\
  extract_table untitled_sheet = inr untitled_sheet /\
  ~ (exists e, extract_table untitled_sheet = inl e).
Proof.
  repeat split; try reflexivity. intros [e He]. discriminate He.
Qed.

(** C2 (amended): when no row holds both 'date' and 'narration', the start
    index is [None] and nothing reports a missing table: on a sheet of
    seven columns the extraction succeeds and returns the rows from the top
    of the sheet up to the end index, the whole sheet when no row holds
    'statement summary' either. *)
Theorem C2_no_start_marker (df_raw : frame) :
  forallb (fun row => negb (is_start_marker row)) df_raw = true ->
  ncols df_raw = 7 ->
  exists end_idx k,
    find_transaction_data_indices df_raw = (None, end_idx) /\
    extract_table df_raw = inr (slice None end_idx df_raw) /\
    slice None end_idx df_raw = firstn k df_raw /\
    (forallb (fun row => negb (is_end_marker row)) df_raw = true ->
     extract_table df_raw = inr df_raw).
Proof.
  intros Hstart Hcols.
  pose proof (find_from_unmarked df_raw 0 Hstart) as Hfst.
  unfold extract_table, find_transaction_data_indices in *.
  destruct (find_from df_raw 0 None) as [start_idx end_idx] eqn:Efind.
  simpl in Hfst. subst start_idx.
  destruct (slice_from_top end_idx df_raw) as [k Hk].
  exists end_idx, k. rewrite Hcols. simpl.
  repeat split; try assumption.
  intros Hend. rewrite (find_from_no_marker df_raw 0 None Hstart Hend) in Efind.
  injection Efind as <-. now rewrite slice_all.
Qed.

Lemma C2_no_start_marker_witness :
  forallb (fun row => negb (is_start_marker row)) untitled_sheet = true /\
  ncols untitled_sheet = 7 /\
  exists end_idx k,
    find_transaction_data_indices untitled_sheet = (None, end_idx) /\
    extract_table untitled_sheet = inr (slice None end_idx untitled_sheet) /\
    slice None end_idx untitled_sheet = firstn k untitled_sheet /\
    (forallb (fun row => negb (is_end_marker row)) untitled_sheet = true ->
     extract_table untitled_sheet = inr untitled_sheet).
Proof.
  split; [reflexivity|]. split; [reflexivity|].
  apply (C2_no_start_marker untitled_sheet); reflexivity.
Defined.

Lemma find_from_skip (pre rows : frame) (i : Z) (start : option Z) :
  unmarked pre = true ->
  find_from (pre ++ rows)%list i start
  = find_from rows (i + Z.of_nat (List.length pre)) start.
Proof.
  revert i; induction pre as [|row pre IH]; intros i; simpl.
  - intros _. now rewrite Z.add_0_r.
  - intros [[Hs He]%andb_prop Hpre]%andb_prop.
    apply negb_true_iff in Hs, He. rewrite Hs, He, IH by exact Hpre.
    f_equal. lia.
Qed.

Lemma slice_middle {A : Type} (pre mid post : list A) :
  slice (Some (Z.of_nat (List.length pre))) 
        (Some (Z.of_nat (List.length pre + List.length mid))) (pre ++ mid ++ post)%list
  = mid.
Proof.
  unfold slice, clamp_index. rewrite !length_app.
  repeat match goal with |- context [(?a <? 0)%Z] =>
    replace (a <? 0)%Z with false by (symmetry; apply Z.ltb_ge; lia) end.
  rewrite !Z.min_l by lia.
  replace (Z.to_nat (Z.of_nat (List.length pre + List.length mid) - Z.of_nat (List.length pre)))
    with (List.length mid) by lia.
  rewrite Nat2Z.id.
  rewrite skipn_app, skipn_all, Nat.sub_diag, skipn_0, app_nil_l.
  rewrite firstn_app, firstn_all, Nat.sub_diag, firstn_0. apply app_nil_r.
Qed.

(** Titles at row [h], a summary line at row [e], no marker in between: the
    table is the rows [h+1 .. e-2]; the row [e-1] is left out. *)
Lemma table_stops_one_row_early (pre kept : frame) (titles last summary : list cell)
    (post : frame) :
  unmarked pre = true -> is_start_marker titles = true ->
  unmarked (kept ++ [last])%list = true ->
  is_start_marker summary = false -> is_end_marker summary = true ->
  ncols (pre ++ titles :: kept ++ last :: summary :: post)%list = 7 ->
  extract_table (pre ++ titles :: kept ++ last :: summary :: post)%list = inr kept.
Proof.
  intros Hpre Htitles Hmid Hs He Hcols.
  unfold extract_table, find_transaction_data_indices. rewrite Hcols. simpl Nat.eqb.
  set (sheet := (pre ++ titles :: kept ++ last :: summary :: post)%list).
  assert (Hfind : find_from sheet 0 None =
            (Some (Z.of_nat (List.length (pre ++ [titles])%list)),
             Some (Z.of_nat (List.length (pre ++ [titles])%list + List.length kept)))).
  { unfold sheet. rewrite find_from_skip by exact Hpre.
    simpl. rewrite Htitles.
    replace (kept ++ last :: summary :: post)%list
      with ((kept ++ [last]) ++ summary :: post)%list
      by (rewrite <- app_assoc; reflexivity).
    rewrite find_from_skip by exact Hmid.
    simpl. rewrite Hs, He. rewrite !length_app. simpl. do 2 f_equal; f_equal; lia. }
  rewrite Hfind. f_equal.
  replace sheet with ((pre ++ [titles]) ++ kept ++ last :: summary :: post)%list
    by (unfold sheet; rewrite <- app_assoc; reflexivity).
  apply slice_middle.
Qed.

(** C4: on a statement whose summary line comes right after the last
    transaction, the indices found are 1 and 2, the slice [1:2] keeps the
    first transaction only, and the transaction on the row just before the
    summary line is not in the table. *)
Theorem C4_row_before_summary_dropped :
  is_start_marker titles = true /\
  is_end_marker (text_row "STATEMENT SUMMARY :-") = true /\
  nth_error statement_sheet 2 = Some rent /\
  find_transaction_data_indices statement_sheet = (Some 1%Z, Some 2%Z) /\
  extract_table statement_sheet = inr [coffee] /\
  (forall df, extract_table statement_sheet = inr df -> ~ In rent df).
Proof.
  repeat split; try reflexivity.
  intros df [= <-] [H|[]]. discriminate H.
Qed.

(** *** The header extractor *)

Lemma header_row_assigned (m : gmap string header_value) (row : list cell) :
  header_row m row =
  match assigned row with
  | Some (k, v) => <[k := v]> m
  | None => m
  end.
Proof.
  unfold header_row, assigned.
  repeat match goal with
         | |- context [if ?b then _ else _] => destruct b
         end;
    try reflexivity;
    match goal with
    | |- context [search ?r ?l] => destruct (search r l); reflexivity
    end.
Qed.

Lemma fold_header_rows (df : frame) (m : gmap string header_value) (key : string) :
  fold_left header_row df m !! key =
  match last_assigned key df with
  | Some v => Some v
  | None => m !! key
  end.
Proof.
  revert m; induction df as [|row df IH]; intros m; simpl; [reflexivity|].
  rewrite IH. destruct (last_assigned key df); [reflexivity|].
  rewrite header_row_assigned. destruct (assigned row) as [[k v]|]; [|reflexivity].
  destruct (String.eqb_spec k key) as [->|Hne].
  - apply lookup_insert_eq.
  - now apply lookup_insert_ne.
Qed.

(** C5, as the code has it: of two rows giving an e-mail address, the
    second is the one recorded. *)
Lemma C5_second_email_recorded :
  first_assigned "Email" two_emails = Some (Text "first@bank.example") /\
  header_info two_emails !! "Email" = Some (Text "second@bank.example") /\
  header_info two_emails !! "Email" <> first_assigned "Email" two_emails.
Proof.
  assert (H : header_info two_emails !! "Email" = Some (Text "second@bank.example"))
    by (vm_compute; reflexivity).
  split; [reflexivity|]. split; [exact H|]. rewrite H. discriminate.
Qed.

(** C5 (amended): the dictionary holds, under each key, the value written by
    the last row that writes that key: a later match of the same label
    overwrites the earlier one. *)
Theorem C5_last_match_wins (df_raw : frame) (key : string) :
  extract_header_info df_raw !! key = last_assigned key df_raw /\
  header_info df_raw !! key = last_assigned key (head 15 df_raw).
Proof.
  unfold header_info, extract_header_info.
  rewrite !fold_header_rows, lookup_empty.
  split; [now destruct (last_assigned key df_raw)
         | now destruct (last_assigned key (head 15 df_raw))].
Qed.


(** *** The narration classifier *)

Lemma any_keyword_in_spec (keywords : list string) (narration : string) :
  any_keyword_in keywords narration = true <->
  exists keyword, In keyword keywords /\ exists a b, narration = a ++ keyword ++ b.
Proof.
  unfold any_keyword_in. rewrite existsb_exists.
  split; intros (kw & Hin & H); exists kw; (split; [exact Hin|]);
    now apply contains_spec.
Qed.

Lemma categorize_from_first (before after : list (string * list string))
    (category : string) (keywords : list string) (narration : string) :
  (forall c ks, In (c, ks) before -> any_keyword_in ks narration = false) ->
  any_keyword_in keywords narration = true ->
  categorize_from (before ++ (category, keywords) :: after)%list narration = category.
Proof.
  intros Hbefore Hhere. induction before as [|[c ks] before IH]; simpl.
  - now rewrite Hhere.
  - rewrite (Hbefore c ks) by now left.
    apply IH. intros c' ks' Hin. apply (Hbefore c' ks'). now right.
Qed.

Lemma categorize_from_none (items : list (string * list string)) (narration : string) :
  (forall c ks, In (c, ks) items -> any_keyword_in ks narration = false) ->
  categorize_from items narration = "others".
Proof.
  intros Hnone. induction items as [|[c ks] items IH]; simpl; [reflexivity|].
  rewrite (Hnone c ks) by now left.
  apply IH. intros c' ks' Hin. apply (Hnone c' ks'). now right.
Qed.

(** C8: the category returned is the first one, in the order of declaration
    (transfer, salary, shopping, food, entertainment, utilities, fuel,
    others), one of whose keywords occurs in the narration: when no keyword
    of the categories declared before it occurs and one of its own does.
    In particular "UPI/AMAZON PAY/123" is cleaned to "upi amazon pay 123",
    in which both 'upi' (transfer) and 'amazon' (shopping) occur, and is
    classified as 'transfer'. *)
Theorem C8_first_category_wins (before after : list (string * list string))
    (category : string) (keywords : list string) (narration : string) :
  categories = (before ++ (category, keywords) :: after)%list ->
  (forall c ks keyword, In (c, ks) before -> In keyword ks ->
     ~ exists a b, narration = a ++ keyword ++ b) ->
  (exists keyword, In keyword keywords /\ exists a b, narration = a ++ keyword ++ b) ->
  categorize_transaction narration = category /\
  map fst categories =
    ["transfer"; "salary"; "shopping"; "food"; "entertainment"; "utilities";
     "fuel"; "others"] /\
  clean_text (Str "UPI/AMAZON PAY/123") = "upi amazon pay 123" /\
  contains "upi" "upi amazon pay 123" = true /\
  contains "amazon" "upi amazon pay 123" = true /\
  categorize_transaction (clean_text (Str "UPI/AMAZON PAY/123")) = "transfer".
Proof.
  intros Hcats Hbefore Hhere. split; [|repeat split; reflexivity].
  unfold categorize_transaction. rewrite Hcats.
  apply categorize_from_first.
  - intros c ks Hin. apply not_true_iff_false. intros Hany.
    apply any_keyword_in_spec in Hany as (kw & Hkw & Hsub).
    exact (Hbefore c ks kw Hin Hkw Hsub).
  - now apply any_keyword_in_spec.
Qed.

Lemma C8_first_category_wins_witness :
  categorize_transaction "upi amazon pay 123" = "transfer" /\
  categorize_transaction "amazon pay 123" = "shopping".
Proof.
  split.
  - apply (C8_first_category_wins [] (List.tail categories) "transfer"
             ["upi"; "imps"; "neft"; "rtgs"; "ib billpay"; "billpay"]
             "upi amazon pay 123").
    + reflexivity.
    + intros c ks keyword [].
    + exists "upi". split; [now left|]. now exists "", " amazon pay 123".
  - apply (C8_first_category_wins (firstn 2 categories) (skipn 3 categories) "shopping"
             ["amazon"; "flipkart"; "myntra"; "shopping"; "ecommerce"; "paytm"]
             "amazon pay 123").
    + reflexivity.
    + intros c ks keyword Hin Hkw Hsub.
      assert (Hany : any_keyword_in ks "amazon pay 123" = true)
        by (apply any_keyword_in_spec; now exists keyword).
      simpl in Hin. destruct Hin as [[= <- <-]|[[= <- <-]|[]]]; discriminate Hany.
    + exists "amazon". split; [now left|]. now exists "", " pay 123".
Defined.

(** C10: cleaning a cleaned narration changes nothing, neither the text nor
    the category found from it; the cleaned text has only lower-case
    letters, digits and single spaces, none of them at either end. *)
Theorem C10_clean_text_idempotent (text : cell) :
  clean_text (Str (clean_text text)) = clean_text text /\
  categorize_transaction (clean_text (Str (clean_text text)))
  = categorize_transaction (clean_text text) /\
  all_chars clean_char (clean_text text) = true /\
  single_spaced false (clean_text text) = true /\
  strip (clean_text text) = clean_text text.
Proof.
  assert (Hclean : all_chars clean_char (clean_text text) = true).
  { unfold clean_text, strip, sub_class_plus.
    apply rstrip_clean, lstrip_clean, sub_runs_clean, sub_class_lower_clean. }
  assert (Hspaced : single_spaced false (clean_text text) = true).
  { unfold clean_text, strip, sub_class_plus.
    apply rstrip_single_spaced, (lstrip_single_spaced false), sub_runs_single_spaced. }
  assert (Hstrip : strip (clean_text text) = clean_text text).
  { unfold clean_text, strip at 1 3.
    rewrite lstrip_fixed
      by apply rstrip_no_leading_space, lstrip_no_leading_space.
    apply rstrip_idempotent. }
  assert (Hfix : clean_text (Str (clean_text text)) = clean_text text).
  { unfold clean_text at 1. simpl str.
    rewrite (lower_clean _ Hclean), (sub_class_clean _ Hclean).
    unfold sub_class_plus. rewrite (sub_runs_fixed _ _ Hspaced). exact Hstrip. }
  rewrite Hfix. auto.
Qed.


(** *** Spending by category *)

Local Open Scope Q_scope.




Local Close Scope Q_scope.

Lemma insert_key_permutation (k : string) (keys : list string) :
  Permutation (insert_key k keys) (k :: keys).
Proof.
  induction keys as [|k' keys IH]; simpl; [reflexivity|].
  destruct (String.leb k k'); [reflexivity|].
  rewrite IH. apply perm_swap.
Qed.

Lemma sort_keys_permutation (keys : list string) : Permutation (sort_keys keys) keys.
Proof.
  induction keys as [|k keys IH]; simpl; [reflexivity|].
  now rewrite insert_key_permutation, IH.
Qed.

Section Groups.

Context {A : Type} (key : A -> string).





Lemma groupby_keys (df : list A) :
  List.NoDup (map fst (groupby key df)) /\
  (forall k, In k (map fst (groupby key df)) <-> exists x, In x df /\ key x = k).
Proof.
  unfold groupby. rewrite map_map. simpl. rewrite map_id.
  pose proof (sort_keys_permutation (nodup string_dec (map key df))) as Hperm.
  split.
  - eapply Permutation_NoDup; [symmetry; exact Hperm | apply List.NoDup_nodup].
  - intros k. split.
    + intros Hk. apply (Permutation_in _ Hperm), nodup_In, in_map_iff in Hk.
      destruct Hk as (x & E & Hx). now exists x.
    + intros (x & Hx & E).
      apply (Permutation_in _ (Permutation_sym Hperm)), nodup_In, in_map_iff.
      now exists x.
Qed.


End Groups.


End ParserFacts.

(** ** Facts on the forecast preparation *)

Module PredictionFacts.
Import Prediction.

Local Open Scope Q_scope.

(** *** The outlier filter *)

Lemma insert_sorted_Forall (P : Q -> Prop) (x : Q) (l : list Q) :
  P x -> Forall P l -> Forall P (insert_sorted x l).
Proof.
  intros Hx. induction 1 as [|y l Hy Hl IH]; simpl.
  - now constructor.
  - destruct (Qle_bool x y); repeat constructor; assumption.
Qed.

Lemma sort_Forall (P : Q -> Prop) (l : list Q) : Forall P l -> Forall P (sort l).
Proof.
  induction 1 as [|x l Hx Hl IH]; simpl; [constructor|].
  now apply insert_sorted_Forall.
Qed.

Lemma insert_sorted_not_nil (x : Q) (l : list Q) : insert_sorted x l <> [].
Proof. destruct l as [|y l]; simpl; [|destruct (Qle_bool x y)]; discriminate. Qed.

Lemma nth_Forall (P : Q -> Prop) (l : list Q) (i : nat) (d : Q) :
  P d -> Forall P l -> P (nth i l d).
Proof.
  intros Hd Hl. revert i. induction Hl as [|y l Hy Hl IH]; intros [|i]; simpl; auto.
Qed.

(** The quantiles of a series all of whose values are equal are that value. *)
Lemma quantile_constant (values : list Q) (v q : Q) :
  Qle_bool 0 q && Qle_bool q 1 = true ->
  values <> [] -> Forall (fun x => x == v) values ->
  exists r, quantile values q = inr (Some r) /\ r == v.
Proof.
  intros Hq Hne Hall. unfold quantile. rewrite Hq.
  pose proof (sort_Forall _ _ Hall) as Hsorted.
  destruct (sort values) as [|x sorted] eqn:Esort.
  - destruct values as [|y values]; [contradiction|].
    simpl in Esort. now apply insert_sorted_not_nil in Esort.
  - eexists. split; [reflexivity|].
    assert (Hx : x == v) by now inversion Hsorted.
    set (i := Z.to_nat _). set (j := Nat.min _ _). set (f := _ - inject_Z _).
    rewrite (nth_Forall (fun y => y == v) (x :: sorted) i x Hx Hsorted).
    rewrite (nth_Forall (fun y => y == v) (x :: sorted) j x Hx Hsorted).
    ring.
Qed.

Lemma filter_keeps_all {A : Type} (f : A -> bool) (l : list A) :
  (forall x, In x l -> f x = true) -> List.filter f l = l.
Proof.
  induction l as [|x l IH]; intros Hall; simpl; [reflexivity|].
  rewrite (Hall x) by now left. f_equal. apply IH. intros y Hy. apply Hall. now right.
Qed.

Lemma filter_sublist {A : Type} (f : A -> bool) (l : list A) :
  sublist (List.filter f l) l.
Proof.
  induction l as [|x l IH]; simpl; [constructor|].
  destruct (f x); now constructor.
Qed.

(** A series all of whose balances are equal is left as it is. *)
Lemma remove_outliers_constant (monthly_df : list monthly) (lq uq : Q) :
  Qle_bool 0 lq && Qle_bool lq 1 = true ->
  Qle_bool 0 uq && Qle_bool uq 1 = true ->
  (forall p p', In p monthly_df -> In p' monthly_df ->
     closing_balance p == closing_balance p') ->
  remove_outliers monthly_df lq uq = inr monthly_df.
Proof.
  intros Hlq Huq Hsame. unfold remove_outliers.
  destruct monthly_df as [|p0 rest] eqn:Edf.
  - unfold quantile. rewrite Hlq, Huq. reflexivity.
  - rewrite <- Edf in *.
    assert (Hin0 : In p0 monthly_df) by (rewrite Edf; now left).
    assert (Hall : Forall (fun x => x == closing_balance p0)
                     (map closing_balance monthly_df)).
    { apply List.Forall_forall. intros x (p & <- & Hp)%in_map_iff. now apply Hsame. }
    assert (Hne : map closing_balance monthly_df <> [])
      by (rewrite Edf; discriminate).
    destruct (quantile_constant _ _ lq Hlq Hne Hall) as (lower & -> & Hlower).
    destruct (quantile_constant _ _ uq Huq Hne Hall) as (upper & -> & Hupper).
    f_equal. apply filter_keeps_all. intros p Hp. simpl.
    apply andb_true_intro. split; apply Qle_bool_iff.
    + rewrite Hlower, (Hsame p p0 Hp Hin0). apply Qle_refl.
    + rewrite Hupper, (Hsame p p0 Hp Hin0). apply Qle_refl.
Qed.

Lemma remove_outliers_bounds (monthly_df filtered : list monthly) (lq uq : Q) :
  remove_outliers monthly_df lq uq = inr filtered ->
  Qle_bool 0 lq && Qle_bool lq 1 = true /\ Qle_bool 0 uq && Qle_bool uq 1 = true.
Proof.
  unfold remove_outliers, quantile.
  destruct (Qle_bool 0 lq && Qle_bool lq 1); [|discriminate].
  destruct (Qle_bool 0 uq && Qle_bool uq 1); [|discriminate].
  auto.
Qed.




(** C7, as the code has it: a second pass over five months removes two more
    of them. *)
Lemma C7_second_pass_removes_more :
  remove_outliers five_months lower_quantile_default upper_quantile_default
    = inr [growing 2; growing 3; growing 4] /\
  remove_outliers [growing 2; growing 3; growing 4]
      lower_quantile_default upper_quantile_default
    = inr [growing 3] /\
  remove_outliers [growing 2; growing 3; growing 4]
      lower_quantile_default upper_quantile_default
    <> inr [growing 2; growing 3; growing 4].
Proof.
  repeat split; vm_compute; congruence.
Qed.

(** C7 (amended): filtering an already filtered series with the same bounds
    succeeds and returns a sub-series of it, the points kept in their order;
    it returns the identical series when the balances left by the first pass
    are all equal, in particular when one point or none is left. *)
Theorem C7_second_pass (monthly_df filtered : list monthly) (lq uq : Q) :
  remove_outliers monthly_df lq uq = inr filtered ->
  exists again,
    remove_outliers filtered lq uq = inr again /\
    sublist again filtered /\
    ((forall p p', In p filtered -> In p' filtered ->
        closing_balance p == closing_balance p') ->
     again = filtered).
Proof.
  intros Hfirst. destruct (remove_outliers_bounds _ _ _ _ Hfirst) as [Hlq Huq].
  destruct (remove_outliers filtered lq uq) as [e|again] eqn:Esecond.
  - exfalso. revert Esecond. unfold remove_outliers, quantile.
    rewrite Hlq, Huq. discriminate.
  - exists again. split; [reflexivity|]. split.
    + revert Esecond. unfold remove_outliers, quantile. rewrite Hlq, Huq.
      intros [= <-]. apply filter_sublist.
    + intros Hsame.
      rewrite (remove_outliers_constant filtered lq uq Hlq Huq Hsame) in Esecond.
      now injection Esecond.
Qed.

Lemma C7_second_pass_witness :
  remove_outliers three_months lower_quantile_default upper_quantile_default
    = inr [january] /\
  exists again,
    remove_outliers [january] lower_quantile_default upper_quantile_default
      = inr again /\
    sublist again [january] /\
    ((forall p p', In p [january] -> In p' [january] ->
        closing_balance p == closing_balance p') ->
     again = [january]).
Proof.
  assert (H : remove_outliers three_months lower_quantile_default upper_quantile_default
              = inr [january]) by (vm_compute; reflexivity).
  split; [exact H|].
  exact (C7_second_pass three_months [january] _ _ H).
Defined.

(** *** The forecast shown and the forecast saved *)

Lemma floor0_nonnegative (x : Q) : 0 <= floor0 x.
Proof. unfold floor0. destruct (Qlt_le_dec x 0); [apply Qle_refl | assumption]. Qed.

Lemma contents_new (s : store) (rows : list prediction) :
  contents (s ++ [rows])%list (List.length s) = rows.
Proof. unfold contents. now rewrite list_lookup_middle. Qed.

Lemma contents_old (s : store) (rows : list prediction) (df : obj) :
  (df < List.length s)%nat -> contents (s ++ [rows])%list df = contents s df.
Proof. intros H. unfold contents. now rewrite lookup_app_l. Qed.

Lemma contents_assigned (s : store) (rows : list prediction) (df : obj) :
  (df < List.length s)%nat -> contents (<[df := rows]> s) df = rows.
Proof. intros H. unfold contents. now rewrite list_lookup_insert_eq. Qed.

Lemma contents_other (s : store) (rows : list prediction) (df df' : obj) :
  df <> df' -> contents (<[df := rows]> s) df' = contents s df'.
Proof. intros H. unfold contents. now rewrite list_lookup_insert_ne. Qed.

Lemma three_floors (rows : list prediction) :
  map floor_yhat_upper (map floor_yhat_lower (map floor_yhat rows))
  = floor_columns rows.
Proof. unfold floor_columns. rewrite !map_map. reflexivity. Qed.

Ltac run_steps :=
  unfold display_forecast, save_forecast_to_excel, plot_forecast, bind, ret,
    frame_tail, set_column, read;
  cbn [fst snd].

Ltac store_lengths :=
  rewrite ?length_insert, ?length_app; cbn [List.length]; lia.

(** What [display_forecast] shows: the last rows of the forecast, floored. *)
Lemma display_forecast_shows (s : store) (forecast : obj) (periods : nat) :
  fst (display_forecast forecast periods s)
  = report (floor_columns (tail periods (contents s forecast))).
Proof.
  run_steps. rewrite !contents_assigned by store_lengths.
  now rewrite contents_new, three_floors.
Qed.

(** It leaves the caller's frame as it was. *)
Lemma display_forecast_keeps (s : store) (forecast : obj) (periods : nat) :
  (forecast < List.length s)%nat ->
  contents (snd (display_forecast forecast periods s)) forecast
  = contents s forecast.
Proof.
  intros H. run_steps. rewrite !contents_other by lia. now apply contents_old.
Qed.

(** What [save_forecast_to_excel] writes: the last rows of the forecast as
    the store has them. *)
Lemma save_forecast_writes (s : store) (forecast : obj) (periods : nat) :
  fst (save_forecast_to_excel forecast periods s)
  = report (tail periods (contents s forecast)).
Proof. run_steps. now rewrite contents_new. Qed.

(** [plot_forecast] floors the caller's frame. *)
Lemma plot_forecast_floors (s : store) (forecast : obj) :
  (forecast < List.length s)%nat ->
  contents (snd (plot_forecast forecast s)) forecast
  = floor_columns (contents s forecast).
Proof.
  intros H. run_steps. rewrite !contents_assigned by store_lengths.
  apply three_floors.
Qed.

Lemma floor_columns_nonnegative (rows : list prediction) :
  Forall nonnegative_row (report (floor_columns rows)).
Proof.
  unfold report, floor_columns. rewrite map_map.
  apply List.Forall_forall. intros r (p & <- & _)%in_map_iff.
  repeat split; apply floor0_nonnegative.
Qed.

Lemma display_forecast_nonnegative (s : store) (forecast : obj) (periods : nat) :
  Forall nonnegative_row (fst (display_forecast forecast periods s)).
Proof. rewrite display_forecast_shows. apply floor_columns_nonnegative. Qed.

(** A negative estimate among the rows saved is saved as it is. *)
Lemma save_forecast_keeps_negative (s : store) (forecast : obj) (periods : nat)
    (p : prediction) :
  In p (tail periods (contents s forecast)) -> yhat p < 0 ->
  ~ Forall nonnegative_row (fst (save_forecast_to_excel forecast periods s)).
Proof.
  intros Hin Hneg Hall. rewrite save_forecast_writes in Hall.
  rewrite List.Forall_forall in Hall.
  destruct (Hall _ (in_map _ _ p Hin)) as [H0 _]. simpl in H0.
  exact (Qlt_not_le _ _ Hneg H0).
Qed.

Lemma tail_map {A B : Type} (f : A -> B) (n : nat) (l : list A) :
  tail n (map f l) = map f (tail n l).
Proof. unfold tail. now rewrite length_map, skipn_map. Qed.

(** Had the file been written after [plot_forecast], it would be floored. *)
Lemma save_after_plot_nonnegative (s : store) (forecast : obj) (periods : nat) :
  (forecast < List.length s)%nat ->
  Forall nonnegative_row
    (fst (save_forecast_to_excel forecast periods (snd (plot_forecast forecast s)))).
Proof.
  intros H. rewrite save_forecast_writes, plot_forecast_floors by exact H.
  unfold floor_columns. rewrite tail_map. apply floor_columns_nonnegative.
Qed.

(** C6: for a forecast whose estimate and lower bound end below zero, the
    table shown has them floored at zero, and the table saved to the file,
    written before [plot_forecast] floors the forecast itself, has them
    negative: for December 2027 it shows 0, 0, 300 and saves -200, -700,
    300. *)
Theorem C6_saved_forecast_not_floored :
  exists displayed saved s,
    main_steps_9_to_11 0%nat [declining_forecast] = ((displayed, saved), s) /\
    List.length displayed = 36%nat /\ List.length saved = 36%nat /\
    Forall nonnegative_row displayed /\
    nth_error displayed 35
      = Some {| Date := "2027-12";
                Predicted_Closing_Balance := 0;
                Lower_Confidence_Interval := 0;
                Upper_Confidence_Interval := 300 |} /\
    nth_error saved 35
      = Some {| Date := "2027-12";
                Predicted_Closing_Balance := -200;
                Lower_Confidence_Interval := -700;
                Upper_Confidence_Interval := 300 |} /\
    ~ Forall nonnegative_row saved /\
    Forall nonnegative_row (report (contents s 0%nat)).
Proof.
  eexists; eexists; eexists. split; [vm_compute; reflexivity|].
  split; [reflexivity|]. split; [reflexivity|].
  split; [|split; [reflexivity|split; [reflexivity|split]]].
  - repeat constructor; vm_compute; congruence.
  - intros H. rewrite List.Forall_forall in H.
    assert (Hin : In {| Date := "2027-12";
                        Predicted_Closing_Balance := -200;
                        Lower_Confidence_Interval := -700;
                        Upper_Confidence_Interval := 300 |}
                     (report (tail 36 declining_forecast))).
    { apply (nth_error_In _ 35). reflexivity. }
    destruct (H _ Hin) as [Hneg _]. now apply Hneg.
  - repeat constructor; vm_compute; congruence.
Qed.

End PredictionFacts.


(** ** Facts on grouping *)

Module FramesFacts.
Import Prediction Frames ParserFacts.

Section GroupByFacts.

Context {K A : Type} (eqb leb : K -> K -> bool).
Hypothesis eqb_eq : forall a b, eqb a b = true <-> a = b.

Lemma insert_by_permutation (k : K) (keys : list K) :
  Permutation (insert_by leb k keys) (k :: keys).
Proof.
  induction keys as [|k' keys IH]; simpl; [reflexivity|].
  destruct (leb k k'); [reflexivity|]. rewrite IH. apply perm_swap.
Qed.

Lemma sort_by_permutation (keys : list K) : Permutation (sort_by leb keys) keys.
Proof.
  induction keys as [|k keys IH]; simpl; [reflexivity|].
  now rewrite insert_by_permutation, IH.
Qed.

Lemma existsb_eqb (k : K) (keys : list K) : existsb (eqb k) keys = true <-> In k keys.
Proof.
  rewrite existsb_exists. split.
  - intros (x & Hx & ->%eqb_eq). exact Hx.
  - intros H. exists k. split; [exact H | now apply eqb_eq].
Qed.

Lemma distinct_In (k : K) (keys : list K) : In k (distinct eqb keys) <-> In k keys.
Proof.
  induction keys as [|k' keys IH]; simpl; [tauto|].
  destruct (existsb (eqb k') keys) eqn:E.
  - apply existsb_eqb in E. rewrite IH. split; [auto|]. intros [<-|H]; auto.
  - simpl. now rewrite IH.
Qed.

Lemma distinct_NoDup (keys : list K) : List.NoDup (distinct eqb keys).
Proof.
  induction keys as [|k keys IH]; simpl; [constructor|].
  destruct (existsb (eqb k) keys) eqn:E; [exact IH|].
  constructor; [|exact IH].
  rewrite distinct_In, <- existsb_eqb, E. discriminate.
Qed.

Lemma omap_In (key : A -> option K) (df : list A) (k : K) :
  In k (omap key df) <-> exists r, In r df /\ key r = Some k.
Proof.
  induction df as [|r df IH]; simpl.
  - split; [intros [] | intros (r & [] & _)].
  - destruct (key r) as [k'|] eqn:E; simpl; rewrite IH.
    + split.
      * intros [<-|(r' & Hr' & Hk)]; [exists r; auto | exists r'; auto].
      * intros (r' & [<-|Hr'] & Hk); [left; congruence | right; now exists r'].
    + split.
      * intros (r' & Hr' & Hk). exists r'. auto.
      * intros (r' & [<-|Hr'] & Hk); [congruence | now exists r'].
Qed.

(** The keys of the groups: each once, and those of the rows. *)
Lemma group_by_keys (key : A -> option K) (df : list A) :
  List.NoDup (map fst (group_by eqb leb key df)) /\
  forall k, In k (map fst (group_by eqb leb key df))
            <-> exists r, In r df /\ key r = Some k.
Proof.
  unfold group_by. rewrite map_map. simpl. rewrite map_id.
  pose proof (sort_by_permutation (distinct eqb (omap key df))) as Hperm.
  split.
  - eapply Permutation_NoDup; [symmetry; exact Hperm | apply distinct_NoDup].
  - intros k. split.
    + intros Hk. apply (Permutation_in _ Hperm) in Hk.
      now apply distinct_In, omap_In in Hk.
    + intros Hk. apply omap_In, distinct_In in Hk.
      now apply (Permutation_in _ (Permutation_sym Hperm)).
Qed.

Lemma keyed_cons (key : A -> option K) (k : K) (r : A) (df : list A) :
  keyed eqb key k (r :: df)
  = if match key r with Some k' => eqb k' k | None => false end
    then r :: keyed eqb key k df else keyed eqb key k df.
Proof. reflexivity. Qed.








Lemma group_by_lookup (key : A -> option K) (df : list A) (k : K) :
  In k (map fst (group_by eqb leb key df)) ->
  In (k, keyed eqb key k df) (group_by eqb leb key df).
Proof.
  unfold group_by. rewrite map_map. simpl. rewrite map_id. intros Hk.
  apply in_map_iff. now exists k.
Qed.

(** *** Order of the keys *)

Hypothesis leb_total : forall a b, leb a b = false -> leb b a = true.
Hypothesis leb_trans : forall a b c, leb a b = true -> leb b c = true -> leb a c = true.

Lemma insert_by_sorted (k : K) (keys : list K) :
  StronglySorted (fun a b => leb a b = true) keys ->
  StronglySorted (fun a b => leb a b = true) (insert_by leb k keys).
Proof.
  induction 1 as [|k' keys Hsorted IH Hall]; simpl; [repeat constructor|].
  destruct (leb k k') eqn:E.
  - constructor; [now constructor|]. constructor; [exact E|].
    eapply List.Forall_impl; [|exact Hall]. intros x Hx. now apply (leb_trans k k' x).
  - constructor; [exact IH|].
    apply (Permutation_Forall (Permutation_sym (insert_by_permutation k keys))).
    constructor; [now apply leb_total | exact Hall].
Qed.

Lemma sort_by_sorted (keys : list K) :
  StronglySorted (fun a b => leb a b = true) (sort_by leb keys).
Proof.
  induction keys as [|k keys IH]; simpl; [constructor | now apply insert_by_sorted].
Qed.

Lemma sorted_distinct_strict (keys : list K) :
  StronglySorted (fun a b => leb a b = true) keys -> List.NoDup keys ->
  StronglySorted (fun a b => leb a b = true /\ a <> b) keys.
Proof.
  induction 1 as [|k keys Hsorted IH Hall]; intros Hnodup; [constructor|].
  apply List.NoDup_cons_iff in Hnodup as [Hk Hnodup].
  constructor; [now apply IH|].
  rewrite List.Forall_forall in *. intros x Hx. split; [now apply Hall|].
  intros ->. contradiction.
Qed.

(** The keys of the groups come in strictly ascending order. *)
Lemma group_by_ascending (key : A -> option K) (df : list A) :
  StronglySorted (fun a b => leb a b = true /\ a <> b)
    (map fst (group_by eqb leb key df)).
Proof.
  apply sorted_distinct_strict; [|apply group_by_keys].
  unfold group_by. rewrite map_map. simpl. rewrite map_id. apply sort_by_sorted.
Qed.

End GroupByFacts.

(** *** Days and months as keys *)

Lemma timestamp_eqb_eq (a b : timestamp) : timestamp_eqb a b = true <-> a = b.
Proof.
  unfold timestamp_eqb. destruct a as [ya ma da], b as [yb mb db]. simpl.
  rewrite !andb_true_iff, !Nat.eqb_eq. split.
  - intros [[-> ->] ->]. reflexivity.
  - intros [= -> -> ->]. auto.
Qed.

Lemma timestamp_leb_total (a b : timestamp) :
  timestamp_leb a b = false -> timestamp_leb b a = true.
Proof.
  unfold timestamp_leb. destruct a as [ya ma da], b as [yb mb db]. simpl.
  destruct (Nat.eqb_spec ya yb), (Nat.eqb_spec yb ya); try congruence;
  destruct (Nat.eqb_spec ma mb), (Nat.eqb_spec mb ma); try congruence;
  rewrite ?Nat.leb_le, ?Nat.leb_gt, ?Nat.ltb_lt, ?Nat.ltb_ge; lia.
Qed.

Lemma timestamp_leb_trans (a b c : timestamp) :
  timestamp_leb a b = true -> timestamp_leb b c = true -> timestamp_leb a c = true.
Proof.
  unfold timestamp_leb. destruct a as [ya ma da], b as [yb mb db], c as [yc mc dc]. simpl.
  destruct (Nat.eqb_spec ya yb), (Nat.eqb_spec yb yc), (Nat.eqb_spec ya yc);
  destruct (Nat.eqb_spec ma mb), (Nat.eqb_spec mb mc), (Nat.eqb_spec ma mc);
  rewrite ?Nat.leb_le, ?Nat.ltb_lt; try lia.
Qed.

Lemma timestamp_leb_earlier (a b : timestamp) :
  timestamp_leb a b = true -> a <> b -> earlier a b.
Proof.
  unfold timestamp_leb, earlier. destruct a as [ya ma da], b as [yb mb db]. simpl.
  destruct (Nat.eqb_spec ya yb); [destruct (Nat.eqb_spec ma mb)|];
  rewrite ?Nat.leb_le, ?Nat.ltb_lt; intros H Hne; try lia.
  subst. destruct (Nat.eq_dec da db); [congruence | lia].
Qed.


Lemma to_period_M_first (t : instant) : day (to_period_M t) = 1%nat.
Proof. reflexivity. Qed.

(** *** Sums *)

Local Open Scope Q_scope.





End FramesFacts.


(** ** More on the statement parser: what the header extractor records *)

Module HeaderFacts.
Import Py PyFacts Parser ParserFacts Spending.

(** *** The matcher *)

Lemma append_cons (c : ascii) (s t : string) : String c s ++ t = String c (s ++ t).
Proof. reflexivity. Qed.

Lemma append_nil (t : string) : "" ++ t = t.
Proof. reflexivity. Qed.

Lemma take_app (d s : string) : take (String.length d) (d ++ s) = d.
Proof.
  induction d as [|c d IH]; [rewrite append_nil; now destruct s|].
  rewrite append_cons. simpl. now rewrite IH.
Qed.

Lemma length_append (d s : string) :
  String.length (d ++ s) = (String.length d + String.length s)%nat.
Proof.
  induction d as [|c d IH]; [reflexivity|].
  rewrite append_cons. simpl. now rewrite IH.
Qed.

Lemma consumed_app (d s : string) : consumed (d ++ s) s = d.
Proof.
  unfold consumed. rewrite length_append.
  replace (String.length d + String.length s - String.length s)%nat
    with (String.length d) by lia.
  apply take_app.
Qed.

Lemma append_empty (s : string) : s ++ "" = s.
Proof.
  induction s as [|c s IH]; [reflexivity|]. now rewrite append_cons, IH.
Qed.

Lemma consumed_all (s : string) : consumed s "" = s.
Proof. pose proof (consumed_app s "") as H. now rewrite append_empty in H. Qed.

(** A greedy repetition hands over what is left after some characters of the
    class. *)
Lemma star_greedy_split (p : ascii -> bool) (s : string)
    (k : string -> option outcome) (o : outcome) :
  star_greedy p s k = Some o ->
  exists d s', s = d ++ s' /\ all_chars p d = true /\ k s' = Some o.
Proof.
  induction s as [|c s IH]; simpl.
  - intros H. now exists "", "".
  - destruct (p c) eqn:Ec.
    + destruct (star_greedy p s k) as [o'|] eqn:E.
      * intros [= <-]. destruct (IH eq_refl) as (d & s' & -> & Hd & Hk).
        exists (String c d), s'. rewrite append_cons. simpl. now rewrite Ec.
      * intros H. now exists "", (String c s).
    + intros H. now exists "", (String c s).
Qed.

(** Over a text all in the class, it takes the whole text when what follows
    accepts the empty rest. *)
Lemma star_greedy_whole (p : ascii -> bool) (s : string)
    (k : string -> option outcome) (o : outcome) :
  all_chars p s = true -> k "" = Some o -> star_greedy p s k = Some o.
Proof.
  intros Hs Hk. induction s as [|c s IH]; simpl; [exact Hk|].
  simpl in Hs. apply andb_prop in Hs as [Hc Hs]. now rewrite Hc, (IH Hs).
Qed.

Lemma star_lazy_calls (p : ascii -> bool) (s : string)
    (k : string -> option outcome) (o : outcome) :
  star_lazy p s k = Some o -> exists s', k s' = Some o.
Proof.
  induction s as [|c s IH]; simpl.
  - destruct (k "") eqn:E; [intros [= <-]; now exists "" | discriminate].
  - destruct (k (String c s)) eqn:E; [intros [= <-]; now exists (String c s)|].
    destruct (p c); [exact IH | discriminate].
Qed.


(** A pattern without groups leaves the groups as they are. *)
Lemma match_at_groupless (r : regex) :
  groupless r = true ->
  forall s g k o, match_at r s g k = Some o -> exists s', k s' g = Some o.
Proof.
  induction r as [l|p|p|p|p|r1 IH1 r2 IH2|r1 IH1 r2 IH2|n r IH]; simpl; intros Hr s g k o.
  - destruct (strip_prefix l s) as [s'|]; [|discriminate]. intros H. now exists s'.
  - destruct s as [|c s]; [discriminate|]. destruct (p c); [|discriminate].
    intros H. now exists s.
  - intros (d & s' & _ & _ & H)%star_greedy_split. now exists s'.
  - apply star_lazy_calls.
  - destruct s as [|c s]; [discriminate|]. destruct (p c); [|discriminate].
    intros (d & s' & _ & _ & H)%star_greedy_split. now exists s'.
  - apply andb_prop in Hr as [H1 H2].
    intros H. apply (IH1 H1) in H as (s1 & H). now apply (IH2 H2) in H.
  - apply andb_prop in Hr as [H1 H2].
    destruct (match_at r1 s g k) as [o'|] eqn:E.
    + intros [= <-]. now apply (IH1 H1) in E.
    + now apply IH2.
  - discriminate.
Qed.

Lemma seq_groupless (r1 r2 : regex) (s : string) (g : groups)
    (k : string -> groups -> option outcome) (o : outcome) :
  groupless r1 = true -> match_at (r1 @@ r2) s g k = Some o ->
  exists s', match_at r2 s' g k = Some o.
Proof. intros Hr H. simpl in H. now apply (match_at_groupless r1 Hr) in H. Qed.

Lemma seq_group_groupless (n : nat) (r1 r2 : regex) (s : string) (g : groups)
    (k : string -> groups -> option outcome) (o : outcome) :
  groupless r1 = true -> match_at (Group n r1 @@ r2) s g k = Some o ->
  exists s', match_at r2 s' ((n, consumed s s') :: g) k = Some o.
Proof.
  intros Hr H.
  change (match_at r1 s g
            (fun s' g' => match_at r2 s' ((n, consumed s s') :: g') k) = Some o) in H.
  now apply (match_at_groupless r1 Hr) in H.
Qed.

(** What the last group of a pattern takes, when it is a repetition of a
    class and ends the pattern. *)
Lemma last_group_plus (n : nat) (p : ascii -> bool) (s rest : string) (g m : groups) :
  match_at (Group n (Plus p)) s g (fun s' g' => Some (s', g')) = Some (rest, m) ->
  exists d, d <> "" /\ all_chars p d = true /\ m = (n, d) :: g.
Proof.
  simpl. destruct s as [|c s]; [discriminate|]. destruct (p c) eqn:Ec; [|discriminate].
  intros (d & s' & -> & Hd & [= <- <-])%star_greedy_split.
  exists (String c d). rewrite <- append_cons, consumed_app. simpl. rewrite Ec.
  repeat split; [discriminate | exact Hd].
Qed.

Lemma last_group_star (n : nat) (p : ascii -> bool) (s rest : string) (g m : groups) :
  match_at (Group n (Star p)) s g (fun s' g' => Some (s', g')) = Some (rest, m) ->
  exists d, all_chars p d = true /\ m = (n, d) :: g.
Proof.
  simpl. intros (d & s' & -> & Hd & [= <- <-])%star_greedy_split.
  exists d. now rewrite consumed_app.
Qed.

Lemma search_found (r : regex) (s : string) (m : groups) :
  search r s = Some m ->
  exists t rest, match_at r t [] (fun s' g' => Some (s', g')) = Some (rest, m).
Proof.
  induction s as [|c s IH]; simpl.
  - destruct (match_at r "" [] _) as [[rest g]|] eqn:E; [|discriminate].
    intros [= <-]. now exists "", rest.
  - destruct (match_at r (String c s) [] _) as [[rest g]|] eqn:E.
    + intros [= <-]. now exists (String c s), rest.
    + exact IH.
Qed.

Lemma group_head (n : nat) (d : string) (g : groups) : group n ((n, d) :: g) = d.
Proof. simpl. now rewrite Nat.eqb_refl. Qed.

(** A label, a colon and digits: the group is a non-empty text of digits. *)
Lemma labelled_digits (label : string) (line : string) (m : groups) :
  search (Lit label @@ Star isspace @@ Lit ":" @@ Star isspace @@
          Group 1 (Plus isdigit))%re line = Some m ->
  group 1 m <> "" /\ all_chars isdigit (group 1 m) = true.
Proof.
  intros (t & rest & H)%search_found.
  do 4 (apply seq_groupless in H as (? & H); [|reflexivity]).
  apply last_group_plus in H as (d & Hne & Hd & ->).
  now rewrite group_head.
Qed.

(** *** What a row can write *)

Lemma assigned_cases (row : list cell) (k : string) (v : header_value) :
  assigned row = Some (k, v) ->
  (exists m, search re_statement_period (line_of row) = Some m /\
     k = "Statement Period" /\ v = Period (group 1 m) (group 2 m)) \/
  (exists m, search re_account_no (line_of row) = Some m /\
     k = "Account Number" /\ v = Text (group 1 m)) \/
  (exists m, search re_email (line_of row) = Some m /\
     k = "Email" /\ v = Text (strip (group 1 m))) \/
  (exists m, search re_name (line_of row) = Some m /\
     k = "Name" /\ v = Text (strip (group 2 m))) \/
  (exists m, search re_cust_id (line_of row) = Some m /\
     k = "Customer ID" /\ v = Text (group 1 m)).
Proof.
  unfold assigned.
  repeat match goal with
         | |- context [if ?b then _ else _] => destruct b
         end;
    try discriminate;
    match goal with
    | |- context [search ?r ?l] => destruct (search r l) as [m|]; [|discriminate]
    end;
    intros [= <- <-]; eauto 10.
Qed.

Lemma last_assigned_from (key : string) (df : frame) (v : header_value) :
  last_assigned key df = Some v ->
  exists row, In row df /\ assigned row = Some (key, v).
Proof.
  induction df as [|row df IH]; simpl; [discriminate|].
  destruct (last_assigned key df) as [v'|].
  - intros [= ->]. destruct (IH eq_refl) as (r & Hr & Ha). exists r. auto.
  - destruct (assigned row) as [[k v']|] eqn:E; [|discriminate].
    destruct (String.eqb_spec k key) as [->|]; [|discriminate].
    intros [= ->]. exists row. auto.
Qed.

Lemma recorded_from (df : frame) (key : string) (v : header_value) :
  extract_header_info df !! key = Some v ->
  exists row, In row df /\ assigned row = Some (key, v).
Proof.
  unfold extract_header_info. rewrite fold_header_rows, lookup_empty.
  destruct (last_assigned key df) as [v'|] eqn:E; [|discriminate].
  intros [= ->]. now apply last_assigned_from.
Qed.

(** X1: the dictionary never holds a key other than the five of the loop;
    the statement period is a pair of texts and every other value a text. *)
Theorem header_keys_and_shapes (df : frame) (key : string) (v : header_value) :
  extract_header_info df !! key = Some v ->
  In key header_keys /\
  (key = "Statement Period" -> exists a b, v = Period a b) /\
  (key <> "Statement Period" -> exists s, v = Text s).
Proof.
  intros (row & _ & H)%recorded_from.
  apply assigned_cases in H
    as [(m & _ & -> & ->)|[(m & _ & -> & ->)|[(m & _ & -> & ->)|
        [(m & _ & -> & ->)|(m & _ & -> & ->)]]]];
    (split; [simpl; tauto|]); split; intros H; try discriminate H;
    try contradiction; eauto.
Qed.

Lemma header_keys_and_shapes_witness :
  extract_header_info two_emails !! "Email" = Some (Text "second@bank.example") /\
  In "Email" header_keys.
Proof.
  assert (H : extract_header_info two_emails !! "Email"
              = Some (Text "second@bank.example")) by (vm_compute; reflexivity).
  split; [exact H|].
  exact (proj1 (header_keys_and_shapes two_emails "Email" _ H)).
Defined.


(** X2: an account number or a customer number, when recorded, is a
    non-empty text of digits. *)
Theorem header_numbers_are_digits (df : frame) (key : string) (v : header_value) :
  key = "Account Number" \/ key = "Customer ID" ->
  extract_header_info df !! key = Some v ->
  exists digits, v = Text digits /\ digits <> "" /\ all_chars isdigit digits = true.
Proof.
  intros Hkey (row & _ & H)%recorded_from.
  apply assigned_cases in H
    as [(m & Hm & -> & ->)|[(m & Hm & -> & ->)|[(m & Hm & -> & ->)|
        [(m & Hm & -> & ->)|(m & Hm & -> & ->)]]]];
    destruct Hkey as [Hkey|Hkey]; try discriminate Hkey;
    apply labelled_digits in Hm; eauto.
Qed.

Lemma header_numbers_are_digits_witness :
  extract_header_info account_sheet !! "Account Number" = Some (Text "50100123456") /\
  exists digits, Text "50100123456" = Text digits /\ digits <> "" /\
                 all_chars isdigit digits = true.
Proof.
  assert (H : extract_header_info account_sheet !! "Account Number"
              = Some (Text "50100123456")) by (vm_compute; reflexivity).
  split; [exact H|].
  exact (header_numbers_are_digits account_sheet "Account Number" _ (or_introl eq_refl) H).
Defined.

Lemma lstrip_all (p : ascii -> bool) (s : string) :
  all_chars p s = true -> all_chars p (lstrip s) = true.
Proof.
  induction s as [|c s IH]; simpl; [reflexivity|].
  intros [Hc Hs]%andb_prop. destruct (isspace c); simpl; rewrite ?Hc; auto.
Qed.

Lemma rstrip_all (p : ascii -> bool) (s : string) :
  all_chars p s = true -> all_chars p (rstrip s) = true.
Proof.
  induction s as [|c s IH]; simpl; [reflexivity|].
  intros [Hc Hs]%andb_prop. specialize (IH Hs).
  destruct (rstrip s); [destruct (isspace c)|]; simpl in *; rewrite ?Hc; auto.
Qed.

Lemma strip_all (p : ascii -> bool) (s : string) :
  all_chars p s = true -> all_chars p (strip s) = true.
Proof. intros H. now apply rstrip_all, lstrip_all. Qed.

Lemma strip_idempotent (s : string) : strip (strip s) = strip s.
Proof.
  unfold strip.
  rewrite (lstrip_fixed (rstrip (lstrip s)))
    by apply rstrip_no_leading_space, lstrip_no_leading_space.
  apply rstrip_idempotent.
Qed.

Lemma email_group (line : string) (m : groups) :
  search re_email line = Some m -> all_chars dot (group 1 m) = true.
Proof.
  intros (t & rest & H)%search_found. unfold re_email in H.
  do 4 (apply seq_groupless in H as (? & H); [|reflexivity]).
  apply last_group_star in H as (d & Hd & ->). now rewrite group_head.
Qed.

Lemma name_group (line : string) (m : groups) :
  search re_name line = Some m -> all_chars dot (group 2 m) = true.
Proof.
  intros (t & rest & H)%search_found. unfold re_name in H.
  apply seq_group_groupless in H as (s1 & H); [|reflexivity].
  apply seq_groupless in H as (s2 & H); [|reflexivity].
  apply last_group_star in H as (d & Hd & ->). now rewrite group_head.
Qed.

(** X3: an e-mail address or a name, when recorded, has no white space at
    either end and no line feed. *)
Theorem header_texts_are_stripped (df : frame) (key : string) (v : header_value) :
  key = "Email" \/ key = "Name" ->
  extract_header_info df !! key = Some v ->
  exists s, v = Text s /\ strip s = s /\ all_chars dot s = true.
Proof.
  intros Hkey (row & _ & H)%recorded_from.
  apply assigned_cases in H
    as [(m & Hm & -> & ->)|[(m & Hm & -> & ->)|[(m & Hm & -> & ->)|
        [(m & Hm & -> & ->)|(m & Hm & -> & ->)]]]];
    destruct Hkey as [Hkey|Hkey]; try discriminate Hkey;
    eexists; (split; [reflexivity|]); (split; [apply strip_idempotent|]);
    apply strip_all.
  - now apply email_group in Hm.
  - now apply name_group in Hm.
Qed.

Lemma header_texts_are_stripped_witness :
  extract_header_info two_emails !! "Email" = Some (Text "second@bank.example") /\
  exists s, Text "second@bank.example" = Text s /\ strip s = s /\
            all_chars dot s = true.
Proof.
  assert (H : extract_header_info two_emails !! "Email"
              = Some (Text "second@bank.example")) by (vm_compute; reflexivity).
  split; [exact H|].
  exact (header_texts_are_stripped two_emails "Email" _ (or_introl eq_refl) H).
Defined.

Lemma search_at_start (r : regex) (s rest : string) (m : groups) :
  match_at r s [] (fun s' g' => Some (s', g')) = Some (rest, m) ->
  search r s = Some m.
Proof. intros H. destruct s; simpl; now rewrite H. Qed.

Lemma alt_left (r1 r2 : regex) (s : string) (g : groups)
    (k : string -> groups -> option outcome) (o : outcome) :
  match_at r1 s g k = Some o -> match_at (Alt r1 r2) s g k = Some o.
Proof. intros H. simpl. now rewrite H. Qed.

Lemma lit_prefix (l s : string) (g : groups)
    (k : string -> groups -> option outcome) :
  match_at (Lit l) (l ++ s) g k = k s g.
Proof.
  simpl. now rewrite (proj2 (strip_prefix_spec l (l ++ s) s) eq_refl).
Qed.

(** The pattern of the name on a text that starts with MR followed by no
    white space: the second group is all that follows MR. *)
Lemma name_after_mr (mr tail_ : string) :
  mr = "MR" -> no_leading_space tail_ = true -> all_chars dot tail_ = true ->
  match_at re_name (mr ++ tail_) [] (fun s' g' => Some (s', g'))
  = Some ("", [(2%nat, tail_); (1%nat, mr)]).
Proof.
  intros -> Hhead Hdot. unfold re_name.
  change (match_at (Alt (Lit "MR") (Alt (Lit "MRS") (Lit "MS"))) ("MR" ++ tail_) []
            (fun s' g' =>
               match_at (Star isspace @@ Group 2 (Star dot)) s'
                 ((1%nat, consumed ("MR" ++ tail_) s') :: g')
                 (fun s'' g'' => Some (s'', g'')))
          = Some ("", [(2%nat, tail_); (1%nat, "MR")])).
  apply alt_left. rewrite lit_prefix, consumed_app.
  change (star_greedy isspace tail_
            (fun s' => star_greedy dot s'
               (fun s'' => Some (s'', [(2%nat, consumed s' s''); (1%nat, "MR")])))
          = Some ("", [(2%nat, tail_); (1%nat, "MR")])).
  assert (E : star_greedy dot tail_
                (fun s'' => Some (s'', [(2%nat, consumed tail_ s''); (1%nat, "MR")]))
              = Some ("", [(2%nat, tail_); (1%nat, "MR")])).
  { apply star_greedy_whole; [exact Hdot | now rewrite consumed_all]. }
  destruct tail_ as [|c t]; [exact E|].
  simpl in Hhead. apply negb_true_iff in Hhead.
  cbn [star_greedy]. rewrite Hhead. exact E.
Qed.

(** X4: the pattern of the name tries MR before MRS, so MRS is never taken
    whole: on a line that starts with MRS (and holds none of the three
    labels tested before), the name recorded starts with the S. *)
Theorem mrs_keeps_its_s (rest : string) :
  all_chars dot rest = true ->
  contains "Statement From" ("MRS" ++ rest) = false ->
  contains "Account No" ("MRS" ++ rest) = false ->
  contains "Email" ("MRS" ++ rest) = false ->
  assigned [Str ("MRS" ++ rest)] = Some ("Name", Text (strip ("S" ++ rest))) /\
  extract_header_info [[Str ("MRS" ++ rest)]] !! "Name"
  = Some (Text (strip ("S" ++ rest))).
Proof.
  intros Hrest H1 H2 H3.
  assert (Hsearch : search re_name ("MRS" ++ rest)
                    = Some [(2%nat, "S" ++ rest); (1%nat, "MR")]).
  { apply (search_at_start _ _ "").
    change ("MRS" ++ rest) with ("MR" ++ String "S" rest).
    apply (name_after_mr "MR" (String "S" rest));
      [reflexivity | reflexivity | exact Hrest]. }
  assert (Hassigned : assigned [Str ("MRS" ++ rest)]
                      = Some ("Name", Text (strip ("S" ++ rest)))).
  { unfold assigned. change (line_of [Str ("MRS" ++ rest)]) with ("MRS" ++ rest).
    rewrite H1, H2, H3, Hsearch.
    change ("MRS" ++ rest) with (String "M" (String "R" (String "S" rest))).
    reflexivity. }
  split; [exact Hassigned|].
  unfold extract_header_info. rewrite fold_header_rows, lookup_empty.
  cbn [last_assigned]. now rewrite Hassigned.
Qed.

Lemma mrs_keeps_its_s_witness :
  extract_header_info [[Str ("MRS" ++ " JANE DOE")]] !! "Name"
  = Some (Text "S JANE DOE").
Proof.
  exact (proj2 (mrs_keeps_its_s " JANE DOE" eq_refl eq_refl eq_refl eq_refl)).
Defined.

End HeaderFacts.


(** ** More on the statement parser: the table, the ledger, the categories *)

Module LedgerFacts.
Import Py PyFacts Parser ParserFacts Spending.

(** *** The table locator *)

(** Rows at which the loop goes on: a row of titles, or a row that is no
    summary line. *)
Lemma find_from_goes_on (before rows : frame) (i : Z) (start : option Z) :
  forallb (fun row => is_start_marker row || negb (is_end_marker row)) before = true ->
  exists start',
    find_from (before ++ rows)%list i start
    = find_from rows (i + Z.of_nat (List.length before)) start'.
Proof.
  revert i start; induction before as [|row before IH]; intros i start; simpl.
  - intros _. exists start. now rewrite Z.add_0_r.
  - intros [Hrow Hrest]%andb_prop.
    destruct (is_start_marker row).
    + destruct (IH (i + 1)%Z (Some (i + 1)%Z) Hrest) as [s' ->].
      exists s'. f_equal. lia.
    + simpl in Hrow. apply negb_true_iff in Hrow. rewrite Hrow.
      destruct (IH (i + 1)%Z start Hrest) as [s' ->].
      exists s'. f_equal. lia.
Qed.

(** X5: of several rows of titles met before the summary line, the last one
    counts: the start index is the row after it, whatever came before, and
    the end index is the row before the summary line. *)
Theorem last_titles_row_wins (before : frame) (titles_row : list cell)
    (between : frame) (summary : list cell) (after : frame) :
  forallb (fun row => is_start_marker row || negb (is_end_marker row)) before = true ->
  is_start_marker titles_row = true ->
  unmarked between = true ->
  is_start_marker summary = false -> is_end_marker summary = true ->
  find_transaction_data_indices
    (before ++ titles_row :: between ++ summary :: after)%list
  = (Some (Z.of_nat (List.length before) + 1)%Z,
     Some (Z.of_nat (List.length before) + Z.of_nat (List.length between))%Z).
Proof.
  intros Hbefore Htitles Hbetween Hs He. unfold find_transaction_data_indices.
  destruct (find_from_goes_on before
              (titles_row :: between ++ summary :: after)%list 0 None Hbefore)
    as [start' ->].
  simpl. rewrite Htitles, find_from_skip by exact Hbetween.
  simpl. rewrite Hs, He. do 2 f_equal; f_equal; lia.
Qed.

Lemma last_titles_row_wins_witness :
  find_transaction_data_indices
    ([titles; coffee] ++ titles :: [rent; coffee]
       ++ text_row "STATEMENT SUMMARY :-" :: [])%list
  = (Some 3%Z, Some 4%Z).
Proof.
  exact (last_titles_row_wins [titles; coffee] titles [rent; coffee]
           (text_row "STATEMENT SUMMARY :-") [] eq_refl eq_refl eq_refl eq_refl eq_refl).
Defined.

Lemma slice_to_minus_one {A : Type} (l : list A) :
  slice None (Some (-1)%Z) l = removelast l.
Proof.
  unfold slice, clamp_index. simpl (_ <? _)%Z. cbv iota.
  rewrite Z.sub_0_r. change (Z.to_nat 0) with 0%nat. rewrite skipn_0.
  rewrite removelast_firstn_len. f_equal. destruct l; simpl; lia.
Qed.

Lemma slice_top_of_prefix {A : Type} (a rest : list A) :
  a <> [] ->
  slice None (Some (Z.of_nat (List.length a) - 1)%Z) (a ++ rest)%list = removelast a.
Proof.
  intros Ha. unfold slice, clamp_index.
  assert (Hlen : (0 < List.length a)%nat) by (destruct a; [contradiction | simpl; lia]).
  replace (Z.of_nat (List.length a) - 1 <? 0)%Z with false
    by (symmetry; apply Z.ltb_ge; lia).
  rewrite length_app, Z.min_l, Z.sub_0_r by lia.
  change (Z.to_nat 0) with 0%nat. rewrite skipn_0.
  replace (Z.to_nat (Z.of_nat (List.length a) - 1)) with (Nat.pred (List.length a)) by lia.
  rewrite firstn_app.
  replace (Nat.pred (List.length a) - List.length a)%nat with 0%nat by lia.
  rewrite firstn_0, app_nil_r. symmetry. apply removelast_firstn_len.
Qed.

(** X6: a summary line met before any row of titles stops the search with
    no start index: the table is then cut from the top of the sheet.  It is
    the rows above the summary line but the last of them; when the summary
    line is the first row, the end index is -1 and the table is the whole
    sheet but its last row. *)
Theorem summary_before_titles (above : frame) (summary : list cell) (below : frame) :
  unmarked above = true ->
  is_start_marker summary = false -> is_end_marker summary = true ->
  ncols (above ++ summary :: below)%list = 7%nat ->
  find_transaction_data_indices (above ++ summary :: below)%list
  = (None, Some (Z.of_nat (List.length above) - 1)%Z) /\
  extract_table (above ++ summary :: below)%list
  = inr (match above with
         | [] => removelast (summary :: below)
         | _ => removelast above
         end).
Proof.
  intros Habove Hs He Hcols.
  assert (Hfind : find_transaction_data_indices (above ++ summary :: below)%list
                  = (None, Some (Z.of_nat (List.length above) - 1)%Z)).
  { unfold find_transaction_data_indices. rewrite find_from_skip by exact Habove.
    simpl. now rewrite Hs, He. }
  split; [exact Hfind|].
  unfold extract_table. rewrite Hfind, Hcols. simpl Nat.eqb. cbv iota. f_equal.
  destruct above as [|row above].
  - apply slice_to_minus_one.
  - apply slice_top_of_prefix. discriminate.
Qed.

Lemma summary_before_titles_witness :
  extract_table ([] ++ text_row "Statement Summary" :: [coffee; rent])%list
  = inr [text_row "Statement Summary"; coffee].
Proof.
  exact (proj2 (summary_before_titles [] (text_row "Statement Summary") [coffee; rent]
                  eq_refl eq_refl eq_refl eq_refl)).
Defined.


(** *** Amount and kind, whatever the signs *)

Local Open Scope Q_scope.

(** X7: whatever the two amounts, negative ones included, the amount
    derived is never negative, the kind is one of the three, and the amount
    is positive exactly when the kind is not 'unknown'. *)
Theorem amount_never_negative (r : row) :
  0 <= amount (enrich r) /\
  In (transaction_type (enrich r)) ["withdrawal"; "deposit"; "unknown"] /\
  (0 < amount (enrich r) <-> transaction_type (enrich r) <> "unknown").
Proof.
  cbn [enrich amount transaction_type].
  unfold calculate_amount, calculate_transaction_type.
  destruct (Qgtb (withdrawal_amt r) 0) eqn:Ew.
  - apply Qgtb_spec in Ew. split; [now apply Qlt_le_weak|].
    split; [simpl; tauto|]. split; [discriminate | auto].
  - destruct (Qgtb (deposit_amt r) 0) eqn:Ed.
    + apply Qgtb_spec in Ed. split; [now apply Qlt_le_weak|].
      split; [simpl; tauto|]. split; [discriminate | auto].
    + split; [apply Qle_refl|]. split; [simpl; tauto|].
      split; [intros H; exfalso; exact (Qlt_irrefl _ H) | congruence].
Qed.




Local Close Scope Q_scope.

(** *** The classifier *)

Lemma categorize_from_result (items : list (string * list string)) (narration : string) :
  (exists keywords, In (categorize_from items narration, keywords) items /\
                    any_keyword_in keywords narration = true) \/
  (categorize_from items narration = "others" /\
   forall c ks, In (c, ks) items -> any_keyword_in ks narration = false).
Proof.
  induction items as [|[c ks] items IH]; simpl.
  - right. split; [reflexivity | intros c ks []].
  - destruct (any_keyword_in ks narration) eqn:E.
    + left. exists ks. auto.
    + destruct IH as [(kw & Hin & Hany)|[Hothers Hnone]].
      * left. exists kw. auto.
      * right. split; [exact Hothers|].
        intros c' ks' [[= <- <-]|Hin]; [exact E | now apply (Hnone c')].
Qed.

(** X9: the category returned is always one of the eight of the taxonomy,
    and it is 'others' exactly when no keyword of any category occurs in the
    narration. *)
Theorem category_is_known (narration : string) :
  In (categorize_transaction narration) (map fst categories) /\
  (categorize_transaction narration = "others" <->
   forall c ks keyword, In (c, ks) categories -> In keyword ks ->
     ~ exists a b, narration = a ++ keyword ++ b).
Proof.
  unfold categorize_transaction.
  destruct (categorize_from_result categories narration)
    as [(kws & Hin & Hany)|[Hothers Hnone]].
  - split; [now apply (in_map fst) in Hin|]. split.
    + intros Ho. exfalso. rewrite Ho in Hin.
      assert (kws = []) as ->.
      { simpl in Hin.
        repeat (destruct Hin as [Hin|Hin]; [discriminate Hin || now injection Hin|]).
        destruct Hin. }
      discriminate Hany.
    + intros Hnone. exfalso.
      apply any_keyword_in_spec in Hany as (kw & Hkw & Hsub).
      exact (Hnone _ _ kw Hin Hkw Hsub).
  - split; [rewrite Hothers; simpl; tauto|]. split; [|auto].
    intros _ c ks kw Hin Hkw Hsub.
    assert (Hany : any_keyword_in ks narration = true)
      by (apply any_keyword_in_spec; now exists kw).
    now rewrite (Hnone c ks Hin) in Hany.
Qed.

Lemma any_keyword_in_permutation (ks ks' : list string) (narration : string) :
  Permutation ks ks' -> any_keyword_in ks narration = any_keyword_in ks' narration.
Proof.
  unfold any_keyword_in.
  induction 1 as [|x l l' _ IH|x y l|l l' l'' _ IH1 _ IH2]; simpl.
  - reflexivity.
  - now rewrite IH.
  - now rewrite !orb_assoc, (orb_comm (contains y narration)).
  - now rewrite IH1.
Qed.

(** X10: the order of the keywords inside a category does not matter: two
    taxonomies with the same categories in the same order, and the same
    keywords in each up to their order, classify every narration alike. *)
Theorem keyword_order_is_irrelevant (items items' : list (string * list string))
    (narration : string) :
  Forall2 (fun a b => fst a = fst b /\ Permutation (snd a) (snd b)) items items' ->
  categorize_from items narration = categorize_from items' narration.
Proof.
  induction 1 as [|[c ks] [c' ks'] items items' [Hc Hks] _ IH]; simpl; [reflexivity|].
  simpl in Hc, Hks. subst c'.
  now rewrite (any_keyword_in_permutation ks ks' narration Hks), IH.
Qed.

Lemma keyword_order_is_irrelevant_witness :
  categorize_from [("salary", ["salary"; "credit"]); ("utilities", ["bill"])]
    "credit card bill"
  = categorize_from [("salary", ["credit"; "salary"]); ("utilities", ["bill"])]
      "credit card bill".
Proof.
  apply keyword_order_is_irrelevant.
  repeat constructor.
Defined.

(** X11: a category is listed in the spending by category exactly when some
    withdrawal has it: a category without a withdrawal is left out, not
    listed with zero. *)
Theorem category_listed_iff_spent (df : list transaction) (k : string) :
  In k (map fst (category_spending df)) <->
  exists t, In t df /\ transaction_type t = "withdrawal" /\ category t = k.
Proof.
  unfold category_spending. rewrite map_map. simpl.
  rewrite (proj2 (groupby_keys category (of_type "withdrawal" df)) k).
  unfold of_type. split.
  - intros (t & [Ht Hw%String.eqb_eq]%filter_In & Hk). now exists t.
  - intros (t & Ht & Hw & Hk). exists t. split; [|exact Hk].
    apply filter_In. split; [exact Ht | now apply String.eqb_eq].
Qed.

End LedgerFacts.


(** ** Facts on spending over time *)

Module SpendingFacts.
Import Py Parser ParserFacts Prediction Frames FramesFacts Spending.

Local Open Scope Q_scope.

Section OverTimeFacts.

Variable to_datetime : cell -> option instant.






End OverTimeFacts.


(** *** The largest expenses *)

Lemma insert_larger_permutation (t : transaction) (l : list transaction) :
  Permutation (insert_larger t l) (t :: l).
Proof.
  induction l as [|u l IH]; simpl; [reflexivity|].
  destruct (Qle_bool (amount u) (amount t)); [reflexivity|].
  rewrite IH. apply perm_swap.
Qed.

Lemma by_amount_descending_permutation (df : list transaction) :
  Permutation (by_amount_descending df) df.
Proof.
  induction df as [|t df IH]; simpl; [reflexivity|].
  now rewrite insert_larger_permutation, IH.
Qed.

Lemma insert_larger_sorted (t : transaction) (l : list transaction) :
  StronglySorted (fun a b => amount b <= amount a) l ->
  StronglySorted (fun a b => amount b <= amount a) (insert_larger t l).
Proof.
  induction 1 as [|u l Hsorted IH Hall]; simpl; [repeat constructor|].
  destruct (Qle_bool (amount u) (amount t)) eqn:E.
  - apply Qle_bool_iff in E.
    constructor; [now constructor|]. constructor; [exact E|].
    eapply List.Forall_impl; [|exact Hall]. intros x Hx. now apply (Qle_trans _ (amount u)).
  - constructor; [exact IH|].
    apply (Permutation_Forall (Permutation_sym (insert_larger_permutation t l))).
    constructor; [|exact Hall].
    apply Qlt_le_weak, Qnot_le_lt. intros H. apply Qle_bool_iff in H. congruence.
Qed.

Lemma by_amount_descending_sorted (df : list transaction) :
  StronglySorted (fun a b => amount b <= amount a) (by_amount_descending df).
Proof.
  induction df as [|t df IH]; simpl; [constructor | now apply insert_larger_sorted].
Qed.

Lemma sorted_app {X : Type} (R : X -> X -> Prop) (a b : list X) :
  StronglySorted R (a ++ b)%list ->
  StronglySorted R a /\ forall x y, In x a -> In y b -> R x y.
Proof.
  induction a as [|x a IH]; simpl.
  - intros _. split; [constructor | intros x y []].
  - intros H. inversion H as [|? ? Hs Hall]; subst.
    destruct (IH Hs) as [Ha Hab]. split.
    + constructor; [exact Ha|]. apply Forall_app in Hall. tauto.
    + intros x' y [<-|Hx] Hy; [|now apply Hab].
      rewrite List.Forall_forall in Hall. apply Hall, in_or_app. now right.
Qed.

(** X14: the list of the top expenses has at most ten rows, all of them
    withdrawals of the ledger, in descending order of amount, and no
    withdrawal left out is larger than one that is listed. *)
Theorem top_expenses_are_the_largest (df : list transaction) :
  (List.length (top_expenses df) <= 10)%nat /\
  StronglySorted (fun a b => amount b <= amount a) (top_expenses df) /\
  exists left_out,
    Permutation (of_type "withdrawal" df) (top_expenses df ++ left_out)%list /\
    forall t u, In t (top_expenses df) -> In u left_out -> amount u <= amount t.
Proof.
  unfold top_expenses.
  set (sorted := by_amount_descending (of_type "withdrawal" df)).
  pose proof (by_amount_descending_sorted (of_type "withdrawal" df)) as Hsorted.
  fold sorted in Hsorted. rewrite <- (firstn_skipn 10 sorted) in Hsorted.
  apply sorted_app in Hsorted as [Htop Hcross].
  split; [apply firstn_le_length|]. split; [exact Htop|].
  exists (skipn 10 sorted). split; [|exact Hcross].
  rewrite firstn_skipn. symmetry. apply by_amount_descending_permutation.
Qed.

End SpendingFacts.


(** ** Facts on the plan *)

Module PlanningFacts.
Import Py Parser ParserFacts Prediction PredictionFacts Frames FramesFacts Planning.

Local Open Scope Q_scope.

(** *** Monthly series *)

Lemma sorted_weaken {X : Type} (R R' : X -> X -> Prop) (l : list X) :
  (forall a b, R a b -> R' a b) -> StronglySorted R l -> StronglySorted R' l.
Proof.
  intros Himpl. induction 1 as [|x l Hs IH Hall]; constructor; [exact IH|].
  eapply List.Forall_impl; [|exact Hall]. auto.
Qed.

Section AggregationFacts.

Context {A : Type}.

Lemma last_months (df : list A) (date_col : A -> option instant)
    (balance_col : A -> option Q) :
  map fst (aggregate_monthly_last df date_col balance_col)
  = map fst (group_by timestamp_eqb timestamp_leb (year_month_of date_col) df).
Proof. unfold aggregate_monthly_last. now rewrite map_map. Qed.

(** X15: the monthly series has one row for each month in which a row has a
    date, and no other; its months are first days of months and come in
    strictly ascending order, whatever the order of the rows.  The average
    series has the same months. *)
Theorem monthly_series_months (df : list A) (date_col : A -> option instant)
    (balance_col : A -> option Q) :
  let months := map fst (aggregate_monthly_last df date_col balance_col) in
  StronglySorted earlier months /\
  Forall (fun m => day m = 1%nat) months /\
  (forall m, In m months <->
             exists r d, In r df /\ date_col r = Some d /\ to_period_M d = m) /\
  map fst (aggregate_monthly_average df date_col balance_col) = months.
Proof.
  intros months. unfold months. rewrite last_months.
  destruct (group_by_keys timestamp_eqb timestamp_leb timestamp_eqb_eq
              (year_month_of date_col) df) as [Hnodup Hkeys].
  assert (Hmonths : forall m,
            In m (map fst (group_by timestamp_eqb timestamp_leb
                             (year_month_of date_col) df)) <->
            exists r d, In r df /\ date_col r = Some d /\ to_period_M d = m).
  { intros m. rewrite Hkeys. unfold year_month_of. split.
    - intros (r & Hr & Hm). destruct (date_col r) as [d|] eqn:E; [|discriminate].
      injection Hm as Hm. now exists r, d.
    - intros (r & d & Hr & Hd & Hm). exists r. now rewrite Hd, Hm. }
  split; [|split; [|split; [exact Hmonths|]]].
  - eapply sorted_weaken;
      [|apply (group_by_ascending timestamp_eqb timestamp_leb timestamp_eqb_eq
                 timestamp_leb_total timestamp_leb_trans)].
    intros a b [Hle Hne]. now apply timestamp_leb_earlier.
  - apply List.Forall_forall. intros m (r & d & _ & _ & <-)%Hmonths. reflexivity.
  - unfold aggregate_monthly_average. now rewrite map_map.
Qed.

Lemma keyed_app {K : Type} (eqb : K -> K -> bool) (key : A -> option K) (k : K)
    (l1 l2 : list A) :
  keyed eqb key k (l1 ++ l2)%list = (keyed eqb key k l1 ++ keyed eqb key k l2)%list.
Proof. apply List.filter_app. Qed.

Lemma valid_app (l1 l2 : list (option Q)) :
  valid (l1 ++ l2)%list = (valid l1 ++ valid l2)%list.
Proof. apply omap_app. Qed.

Lemma valid_cons_some (b : Q) (l : list (option Q)) :
  valid (Some b :: l) = b :: valid l.
Proof. reflexivity. Qed.


Lemma last_app_one {X : Type} (l : list X) (x : X) : last (l ++ [x])%list = Some x.
Proof. induction l as [|y [|z l] IH]; [reflexivity | reflexivity | exact IH]. Qed.

(** X16: the balance of a month is the one of the row of that month that
    comes last in the frame and holds a balance, whatever the days of the
    rows: a row further down the frame wins over a row with a later date. *)
Theorem last_row_of_month_wins (before after : list A) (r : A) (d : instant) (b : Q)
    (date_col : A -> option instant) (balance_col : A -> option Q) :
  date_col r = Some d -> balance_col r = Some b ->
  (forall r', In r' after -> year_month_of date_col r' = Some (to_period_M d) ->
              balance_col r' = None) ->
  In (to_period_M d, Some b)
     (aggregate_monthly_last (before ++ r :: after)%list date_col balance_col).
Proof.
  intros Hd Hb Hafter. unfold aggregate_monthly_last.
  set (m := to_period_M d). set (df := (before ++ r :: after)%list).
  assert (Hkey : year_month_of date_col r = Some m)
    by (unfold year_month_of; now rewrite Hd).
  assert (Hin : In (m, keyed timestamp_eqb (year_month_of date_col) m df)
                   (group_by timestamp_eqb timestamp_leb (year_month_of date_col) df)).
  { apply group_by_lookup.
    apply (group_by_keys timestamp_eqb timestamp_leb timestamp_eqb_eq).
    exists r. split; [|exact Hkey]. apply in_or_app. right. now left. }
  apply (in_map (fun g => (fst g, nanlast (map balance_col (snd g))))) in Hin.
  simpl in Hin.
  assert (Hlast : nanlast (map balance_col
                             (keyed timestamp_eqb (year_month_of date_col) m df))
                  = Some b).
  { unfold df. rewrite keyed_app, keyed_cons, Hkey.
    rewrite (proj2 (timestamp_eqb_eq m m) eq_refl).
    rewrite map_app. cbn [map]. rewrite Hb. unfold nanlast.
    rewrite valid_app.
    assert (Hnone : valid (map balance_col
                             (keyed timestamp_eqb (year_month_of date_col) m after)) = []).
    { clear Hin. induction after as [|r' after IH]; [reflexivity|].
      rewrite keyed_cons.
      destruct (year_month_of date_col r') as [m'|] eqn:E.
      - destruct (timestamp_eqb m' m) eqn:Em.
        + apply timestamp_eqb_eq in Em as ->. cbn [map].
          rewrite (Hafter r' (or_introl eq_refl) E). simpl.
          apply IH. intros r'' Hr''. apply Hafter. now right.
        + apply IH. intros r'' Hr''. apply Hafter. now right.
      - apply IH. intros r'' Hr''. apply Hafter. now right. }
    rewrite valid_cons_some, Hnone. apply last_app_one. }
  now rewrite Hlast in Hin.
Qed.




End AggregationFacts.

Lemma last_row_of_month_wins_witness :
  In (first_of 2024 3, Some 1000)
     (aggregate_monthly_last daily_data entry_date entry_balance).
Proof.
  apply (last_row_of_month_wins
           [ {| entry_date := Some (at_midnight 2024 3 20);
                entry_balance := Some 700; entry_withdrawal := Some 300 |} ]
           [ {| entry_date := Some (at_midnight 2024 4 2);
                entry_balance := Some 400; entry_withdrawal := Some 600 |};
             {| entry_date := Some (at_midnight 2024 3 28);
                entry_balance := None; entry_withdrawal := None |} ]
           {| entry_date := Some (at_midnight 2024 3 5);
              entry_balance := Some 1000; entry_withdrawal := Some 100 |}
           (at_midnight 2024 3 5) 1000 entry_date entry_balance eq_refl eq_refl).
  intros r' [<-|[<-|[]]] H; [discriminate H | reflexivity].
Defined.



(** *** The amount to invest *)

(** X19: the investable amount is never negative; it is zero exactly when
    the balance does not exceed the average expense plus a tenth of it, and
    otherwise it is the balance less eleven tenths of the average expense. *)
Theorem investable_amount_cases (current_balance average_expense : Q) :
  0 <= determine_investable_amount current_balance average_expense /\
  (current_balance <= (11 # 10) * average_expense ->
   determine_investable_amount current_balance average_expense == 0) /\
  ((11 # 10) * average_expense < current_balance ->
   determine_investable_amount current_balance average_expense
   == current_balance - (11 # 10) * average_expense /\
   0 < determine_investable_amount current_balance average_expense).
Proof.
  unfold determine_investable_amount, floor0.
  assert (E : current_balance - (average_expense + (1 # 10) * average_expense)
              == current_balance - (11 # 10) * average_expense) by ring.
  destruct (Qlt_le_dec _ 0) as [Hneg|Hpos].
  - split; [apply Qle_refl|]. split; [reflexivity|].
    intros H. exfalso. rewrite E in Hneg.
    apply (Qlt_irrefl 0). eapply Qlt_trans; [|exact Hneg].
    now rewrite <- (Qlt_minus_iff ((11 # 10) * average_expense) current_balance).
  - split; [exact Hpos|]. split.
    + intros H. rewrite E in *. apply Qle_antisym; [|exact Hpos].
      apply (Qplus_le_r _ _ ((11 # 10) * average_expense)). ring_simplify. exact H.
    + intros H. split; [exact E|]. rewrite E.
      now rewrite <- (Qlt_minus_iff ((11 # 10) * average_expense) current_balance).
Qed.

(** *** Age, risk and the split *)

(** X20: the strategy by age.  An age under 20 is treated as an age of 60
    or more: both get 'Low' and 22.5 per cent, less than the 27.5 per cent
    of the fifties.  Every age gets one of the five tolerances and a share
    between 10 and 27.5 per cent. *)
Theorem strategy_by_age (age : Z) :
  ((age < 20 \/ 60 <= age)%Z -> get_investment_strategy age = ("Low", 225 # 1000)) /\
  ((50 <= age < 60)%Z -> get_investment_strategy age = ("Low-Moderate", 275 # 1000)) /\
  In (fst (get_investment_strategy age))
     ["High"; "Moderate-High"; "Moderate"; "Low-Moderate"; "Low"] /\
  1 # 10 <= snd (get_investment_strategy age) <= 275 # 1000.
Proof.
  unfold get_investment_strategy.
  destruct (Z.leb_spec 20 age), (Z.ltb_spec age 30), (Z.leb_spec 30 age),
    (Z.ltb_spec age 40), (Z.leb_spec 40 age), (Z.ltb_spec age 50),
    (Z.leb_spec 50 age), (Z.ltb_spec age 60); try lia; simpl;
    (split; [intros; first [reflexivity | lia]|]);
    (split; [intros; first [reflexivity | lia]|]);
    (split; [tauto|]); split; vm_compute; congruence.
Qed.




(** *** The end of [main] *)

Lemma last_map {X Y : Type} (f : X -> Y) (l : list X) :
  last (map f l) = match last l with Some x => Some (f x) | None => None end.
Proof.
  induction l as [|x [|y l] IH]; [reflexivity | reflexivity |].
  exact IH.
Qed.

Lemma contents_app_l (s extra : store) (df : obj) :
  (df < List.length s)%nat -> contents (s ++ extra)%list df = contents s df.
Proof. intros H. unfold contents. now rewrite lookup_app_l. Qed.

Lemma insert_new (s : store) (old new : list prediction) :
  <[List.length s := new]> (s ++ [old])%list = (s ++ [new])%list.
Proof.
  rewrite insert_app_r_alt by lia. now rewrite Nat.sub_diag.
Qed.

(** [display_forecast] and [save_forecast_to_excel] add one object to the
    store and change none. *)
Lemma display_forecast_store (s : store) (forecast : obj) (periods : nat) :
  exists extra, snd (display_forecast forecast periods s) = (s ++ extra)%list.
Proof.
  run_steps. rewrite !contents_new, !insert_new, ?contents_new.
  repeat (rewrite insert_new, ?contents_new). eexists. reflexivity.
Qed.

Lemma save_forecast_store (s : store) (forecast : obj) (periods : nat) :
  exists extra, snd (save_forecast_to_excel forecast periods s) = (s ++ extra)%list.
Proof. run_steps. eexists. reflexivity. Qed.

(** After the three steps the caller's forecast is floored. *)
Lemma forecast_after_steps (s : store) (forecast : obj) :
  (forecast < List.length s)%nat ->
  contents (snd (main_steps_9_to_11 forecast s)) forecast
  = floor_columns (contents s forecast).
Proof.
  intros H.
  assert (E : snd (main_steps_9_to_11 forecast s)
              = snd (plot_forecast forecast
                       (snd (save_forecast_to_excel forecast 36
                               (snd (display_forecast forecast 36 s)))))).
  { unfold main_steps_9_to_11, bind, ret.
    destruct (display_forecast forecast 36 s) as [shown s1]. simpl.
    destruct (save_forecast_to_excel forecast 36 s1) as [saved s2]. simpl.
    now destruct (plot_forecast forecast s2). }
  rewrite E.
  destruct (display_forecast_store s forecast 36) as [extra1 ->].
  destruct (save_forecast_store (s ++ extra1)%list forecast 36) as [extra2 ->].
  rewrite plot_forecast_floors by (rewrite !length_app; lia).
  rewrite !contents_app_l by (rewrite ?length_app; lia). reflexivity.
Qed.

(** X22: the balance [main] plans with is the last estimate of the forecast
    as [plot_forecast] left it, floored at zero.  So a forecast that ends at
    or below zero never leads to a plan, and a plan, when made, is made of
    the floored estimate less eleven tenths of the average expense. *)
Theorem main_plans_with_floored_balance (s : store) (forecast : obj) (p : prediction)
    (average_expense : Q) (age : Z) (mutual_funds : bool) :
  (forecast < List.length s)%nat ->
  last (contents s forecast) = Some p ->
  0 <= average_expense ->
  let investable :=
    determine_investable_amount (floor0 (yhat p)) average_expense in
  fst (main_steps_9_to_17 forecast average_expense age mutual_funds s)
  = (if Qle_bool investable 0 then NoInvestableAmount
     else if mutual_funds then Planned (create_investment_plan age investable)
     else NoFundsData) /\
  (yhat p <= 0 ->
   fst (main_steps_9_to_17 forecast average_expense age mutual_funds s)
   = NoInvestableAmount).
Proof.
  intros Hobj Hlast Havg investable.
  assert (Hrun : fst (main_steps_9_to_17 forecast average_expense age mutual_funds s)
                 = (if Qle_bool investable 0 then NoInvestableAmount
                    else if mutual_funds
                    then Planned (create_investment_plan age investable)
                    else NoFundsData)).
  { unfold main_steps_9_to_17, last_yhat, bind, ret, read.
    pose proof (forecast_after_steps s forecast Hobj) as Hafter.
    destruct (main_steps_9_to_11 forecast s) as [shown s']. simpl in *.
    rewrite Hafter. unfold floor_columns. rewrite last_map, Hlast. reflexivity. }
  split; [exact Hrun|].
  intros Hneg. rewrite Hrun.
  assert (Hzero : investable == 0).
  { apply (proj1 (proj2 (investable_amount_cases _ _))).
    assert (Hfloor : floor0 (yhat p) == 0).
    { unfold floor0. destruct (Qlt_le_dec (yhat p) 0); [reflexivity|].
      now apply Qle_antisym. }
    rewrite Hfloor. apply Qmult_le_0_compat; [discriminate | exact Havg]. }
  assert (Hle : Qle_bool investable 0 = true)
    by (apply Qle_bool_iff; rewrite Hzero; apply Qle_refl).
  now rewrite Hle.
Qed.

Lemma main_plans_with_floored_balance_witness :
  fst (main_steps_9_to_17 0%nat 500 35 true [declining_forecast])
  = NoInvestableAmount.
Proof.
  apply (proj2 (main_plans_with_floored_balance [declining_forecast] 0%nat
                  (declining 37) 500 35 true ltac:(simpl; lia) eq_refl
                  ltac:(discriminate))).
  discriminate.
Defined.

End PlanningFacts.


(** ** More on the outlier filter *)

Module OutlierFacts.
Import Prediction PredictionFacts.

Local Open Scope Q_scope.

















End OutlierFacts.


(** ** Facts on the funds *)

Module FundsFacts.
Import Py PyFacts Planning HeaderFacts.

Ltac compute_char_functions :=
  repeat match goal with
         | |- context [title_first ?c] =>
             let v := eval vm_compute in (title_first c) in
             change (title_first c) with v
         | |- context [lower_char ?c] =>
             let v := eval vm_compute in (lower_char c) in
             change (lower_char c) with v
         end.

(** A text is capitalized to one of the three keys exactly when it is that
    key up to the case of its letters. *)
Lemma capitalize_to_key (s key : string) :
  In key ["High"; "Medium"; "Low"] ->
  (capitalize s = Some key <-> lower s = lower key).
Proof.
  intros Hkey. destruct s as [|c rest].
  - simpl in Hkey. destruct Hkey as [<-|[<-|[<-|[]]]]; split; discriminate.
  - unfold capitalize. cbn [lower].
    destruct Hkey as [<-|[<-|[<-|[]]]];
      destruct c as [[] [] [] [] [] [] [] []];
      compute_char_functions; cbv iota;
      rewrite ?append_cons, ?append_nil;
      (split; intros H; [try discriminate H | try discriminate H]);
      injection H as H; rewrite H; reflexivity.
Qed.

Lemma funds_data_keys (key : string) :
  is_Some (funds_data !! key) <-> In key ["High"; "Medium"; "Low"].
Proof.
  unfold funds_data. split.
  - intros [funds Hfunds].
    destruct (decide (key = "High")) as [->|N1]; [simpl; tauto|].
    destruct (decide (key = "Medium")) as [->|N2]; [simpl; tauto|].
    destruct (decide (key = "Low")) as [->|N3]; [simpl; tauto|].
    rewrite !lookup_insert_ne, lookup_empty in Hfunds by congruence.
    discriminate Hfunds.
  - intros [<-|[<-|[<-|[]]]]; vm_compute; eexists; reflexivity.
Qed.

(** X25: [suggest_mutual_fund] looks the category up whatever the case of
    its letters: it returns a table exactly for high, medium and low in any
    mix of cases, and [None] for every other text, the tolerances
    'Moderate-High', 'Moderate' and 'Low-Moderate' among them; a table
    returned has five funds. *)
Theorem suggest_ignores_case (risk_category : string) :
  (is_Some (suggest_mutual_fund risk_category)
   <-> In (lower risk_category) ["high"; "medium"; "low"]) /\
  (forall funds, suggest_mutual_fund risk_category = Some funds ->
                 List.length funds = 5%nat) /\
  (In risk_category ["Moderate-High"; "Moderate"; "Low-Moderate"] ->
   suggest_mutual_fund risk_category = None).
Proof.
  split; [|split].
  - unfold suggest_mutual_fund. split.
    + destruct (capitalize risk_category) as [key|] eqn:E; [|intros [? H]; discriminate H].
      intros Hkey%funds_data_keys.
      apply (capitalize_to_key risk_category key Hkey) in E. rewrite E.
      simpl in Hkey. destruct Hkey as [<-|[<-|[<-|[]]]]; simpl; tauto.
    + intros Hlower.
      assert (Hkey : exists key, In key ["High"; "Medium"; "Low"] /\
                                 lower risk_category = lower key).
      { simpl in Hlower. destruct Hlower as [H|[H|[H|[]]]];
          [exists "High" | exists "Medium" | exists "Low"]; simpl; auto. }
      destruct Hkey as (key & Hkey & E).
      apply (capitalize_to_key risk_category key Hkey) in E. rewrite E.
      now apply funds_data_keys.
  - unfold suggest_mutual_fund. intros funds.
    destruct (capitalize risk_category) as [key|]; [|discriminate].
    intros H.
    assert (Hkey : In key ["High"; "Medium"; "Low"])
      by (apply funds_data_keys; now exists funds).
    simpl in Hkey. destruct Hkey as [<-|[<-|[<-|[]]]];
      vm_compute in H; injection H as <-; reflexivity.
  - intros [<-|[<-|[<-|[]]]]; vm_compute; reflexivity.
Qed.

End FundsFacts.
